(** * NFTagent: the lazy-minting ERC721 contract

    A shallow embedding of the [NFTagent] contract (Solidity ^0.8.0) and of
    the parts of the OpenZeppelin 4.x [ERC721] / [ERC721Burnable] base
    contracts it inherits from, followed by the properties of the identifier
    lifecycle.

    Conventions of the embedding.
    - [uint256] and [address] values are binary naturals ([N]); arithmetic that
      Solidity 0.8 checks ([+=], [-=]) is written with its overflow test and
      fails with [Panic 17] (0x11).
    - A [mapping(K => V)] is a [gmap K V] read with the type's zero value as
      default; [delete m[k]] removes the key.
    - A function of the contract is a computation [M A]: it takes the storage
      and either returns a value with the new storage or reverts.  A revert
      carries no storage: the caller keeps the storage it had (EVM rollback).
    - An external call out of the contract (the ERC721 receiver hook, the
      value transfer of [withdraw]) hands control to foreign code, which may
      call back into the contract before it answers.  It is a [callee]: the
      calls it makes, then its answer. *)

From stdpp Require Import gmap strings list fin_maps.
From Stdlib Require Import NArith Lia.

Local Open Scope N_scope.

Abbreviation address := N (only parsing).
Abbreviation uint256 := N (only parsing).
Abbreviation bytes32 := N (only parsing).

(** ** Events *)

Inductive event : Type :=
| IdRevoked (tokenId : uint256)
| IdFloorSet (idFloor : uint256)
| Receipt (value : uint256)
| Withdrawal (value : uint256)
| Transfer (from to : address) (tokenId : uint256)
| Approval (owner approved : address) (tokenId : uint256)
| ApprovalForAll (owner operator : address) (approved : bool).

(** ** Storage *)

(** The state variables of [NFTagent] (lines 20-25), those of the inherited
    [ERC721], the ether balance of the contract's account
    ([address(this).balance]) and the log of emitted events. *)
Record state : Type := {
  owner : address;
  totalSupply : uint256;
  idFloor : uint256;
  tokenURIs : gmap N string;
  revokedIds : gmap N bool;
  _owners : gmap N N;
  _balances : gmap N N;
  _tokenApprovals : gmap N N;
  _operatorApprovals : gmap (N * N) bool;
  balance : uint256;
  events : list event
}.

Definition set_totalSupply (v : uint256) (s : state) : state :=
  {| owner := owner s; totalSupply := v; idFloor := idFloor s;
     tokenURIs := tokenURIs s; revokedIds := revokedIds s;
     _owners := _owners s; _balances := _balances s;
     _tokenApprovals := _tokenApprovals s;
     _operatorApprovals := _operatorApprovals s;
     balance := balance s; events := events s |}.

Definition set_idFloor (v : uint256) (s : state) : state :=
  {| owner := owner s; totalSupply := totalSupply s; idFloor := v;
     tokenURIs := tokenURIs s; revokedIds := revokedIds s;
     _owners := _owners s; _balances := _balances s;
     _tokenApprovals := _tokenApprovals s;
     _operatorApprovals := _operatorApprovals s;
     balance := balance s; events := events s |}.

Definition set_tokenURIs (v : gmap N string) (s : state) : state :=
  {| owner := owner s; totalSupply := totalSupply s; idFloor := idFloor s;
     tokenURIs := v; revokedIds := revokedIds s;
     _owners := _owners s; _balances := _balances s;
     _tokenApprovals := _tokenApprovals s;
     _operatorApprovals := _operatorApprovals s;
     balance := balance s; events := events s |}.

Definition set_revokedIds (v : gmap N bool) (s : state) : state :=
  {| owner := owner s; totalSupply := totalSupply s; idFloor := idFloor s;
     tokenURIs := tokenURIs s; revokedIds := v;
     _owners := _owners s; _balances := _balances s;
     _tokenApprovals := _tokenApprovals s;
     _operatorApprovals := _operatorApprovals s;
     balance := balance s; events := events s |}.

Definition set_owners (v : gmap N N) (s : state) : state :=
  {| owner := owner s; totalSupply := totalSupply s; idFloor := idFloor s;
     tokenURIs := tokenURIs s; revokedIds := revokedIds s;
     _owners := v; _balances := _balances s;
     _tokenApprovals := _tokenApprovals s;
     _operatorApprovals := _operatorApprovals s;
     balance := balance s; events := events s |}.

Definition set_balances (v : gmap N N) (s : state) : state :=
  {| owner := owner s; totalSupply := totalSupply s; idFloor := idFloor s;
     tokenURIs := tokenURIs s; revokedIds := revokedIds s;
     _owners := _owners s; _balances := v;
     _tokenApprovals := _tokenApprovals s;
     _operatorApprovals := _operatorApprovals s;
     balance := balance s; events := events s |}.

Definition set_tokenApprovals (v : gmap N N) (s : state) : state :=
  {| owner := owner s; totalSupply := totalSupply s; idFloor := idFloor s;
     tokenURIs := tokenURIs s; revokedIds := revokedIds s;
     _owners := _owners s; _balances := _balances s;
     _tokenApprovals := v;
     _operatorApprovals := _operatorApprovals s;
     balance := balance s; events := events s |}.

Definition set_operatorApprovals (v : gmap (N * N) bool) (s : state) : state :=
  {| owner := owner s; totalSupply := totalSupply s; idFloor := idFloor s;
     tokenURIs := tokenURIs s; revokedIds := revokedIds s;
     _owners := _owners s; _balances := _balances s;
     _tokenApprovals := _tokenApprovals s;
     _operatorApprovals := v;
     balance := balance s; events := events s |}.

Definition set_balance (v : uint256) (s : state) : state :=
  {| owner := owner s; totalSupply := totalSupply s; idFloor := idFloor s;
     tokenURIs := tokenURIs s; revokedIds := revokedIds s;
     _owners := _owners s; _balances := _balances s;
     _tokenApprovals := _tokenApprovals s;
     _operatorApprovals := _operatorApprovals s;
     balance := v; events := events s |}.

Definition set_events (v : list event) (s : state) : state :=
  {| owner := owner s; totalSupply := totalSupply s; idFloor := idFloor s;
     tokenURIs := tokenURIs s; revokedIds := revokedIds s;
     _owners := _owners s; _balances := _balances s;
     _tokenApprovals := _tokenApprovals s;
     _operatorApprovals := _operatorApprovals s;
     balance := balance s; events := v |}.

(** ** Reverting computations *)

(** [Error reason] is [require(cond, reason)] failing ([require(cond)] has the
    empty reason); [Panic code] is a compiler-inserted check failing. *)
Inductive failure : Type :=
| Error (reason : string)
| Panic (code : N).

Inductive result (A : Type) : Type :=
| Ok (a : A)
| Revert (e : failure).
Arguments Ok {A} a.
Arguments Revert {A} e.

Definition M (A : Type) : Type := state → result (A * state).

Definition ret {A} (a : A) : M A := λ s, Ok (a, s).

Definition bind {A B} (c : M A) (k : A → M B) : M B :=
  λ s, match c s with
       | Ok (a, s') => k a s'
       | Revert e => Revert e
       end.

Notation "x <- c ;; k" := (bind c (λ x, k))
  (at level 100, c at next level, right associativity).
Notation "c ;; k" := (bind c (λ _, k))
  (at level 100, right associativity).

Definition require (cond : bool) (reason : string) : M unit :=
  λ s, if cond then Ok (tt, s) else Revert (Error reason).

Definition read {A} (f : state → A) : M A := λ s, Ok (f s, s).

Definition write (f : state → state) : M unit := λ s, Ok (tt, f s).

Definition emit (e : event) : M unit :=
  write (λ s, set_events (events s ++ [e]) s).

(** An event invoked as a bare expression statement, [E(args);], without the
    [emit] keyword.  The compilers of the pragma that accept this form
    (0.8.0 to 0.8.3) compile it as the emit statement: the entry is added
    to the log.  Later compilers reject the source. *)
Definition invoke (e : event) : M unit := emit e.

(** A value computed outside the contract's storage that may itself revert. *)
Definition lift {A} (r : result A) : M A :=
  λ s, match r with Ok a => Ok (a, s) | Revert e => Revert e end.

Definition checked_add (x y : uint256) : M uint256 :=
  if bool_decide (x + y < 2 ^ 256) then ret (x + y) else lift (Revert (Panic 17)).

Definition checked_sub (x y : uint256) : M uint256 :=
  if bool_decide (y ≤ x) then ret (x - y) else lift (Revert (Panic 17)).

(** The effect on this contract of foreign code run by an external call: the
    storage it leaves behind and whether it answered favourably. *)
Definition external : Type := state → state * bool.

(** ** The inherited ERC721 base *)

(** Modelled from the spec: the ownership component is the OpenZeppelin 4.x
    [ERC721] and [ERC721Burnable] contracts, imported at lines 4-5 and absent
    from the sources.  The spec calls it the surrounding ownership component:
    an identifier is claimed while it has a holder, burning is gated on the
    holder, and issuance hands the identifier to the recipient.  The bodies
    below follow the library's functions of the same names. *)
Module ERC721.

Definition _exists (tokenId : uint256) : M bool :=
  read (λ s, negb (bool_decide (default 0 (_owners s !! tokenId) = 0))).

Definition ownerOf (tokenId : uint256) : M address :=
  o <- read (λ s, default 0 (_owners s !! tokenId)) ;;
  require (negb (bool_decide (o = 0))) "ERC721: owner query for nonexistent token" ;;
  ret o.

Definition getApproved (tokenId : uint256) : M address :=
  e <- _exists tokenId ;;
  require e "ERC721: approved query for nonexistent token" ;;
  read (λ s, default 0 (_tokenApprovals s !! tokenId)).

Definition isApprovedForAll (holder operator : address) : M bool :=
  read (λ s, default false (_operatorApprovals s !! (holder, operator))).

Definition _isApprovedOrOwner (spender : address) (tokenId : uint256) : M bool :=
  e <- _exists tokenId ;;
  require e "ERC721: operator query for nonexistent token" ;;
  o <- ownerOf tokenId ;;
  a <- getApproved tokenId ;;
  all <- isApprovedForAll o spender ;;
  ret (bool_decide (spender = o) || bool_decide (a = spender) || all).

Definition _approve (to : address) (tokenId : uint256) : M unit :=
  write (λ s, set_tokenApprovals (<[tokenId := to]> (_tokenApprovals s)) s) ;;
  o <- ownerOf tokenId ;;
  emit (Approval o to tokenId).

Definition _mint (to : address) (tokenId : uint256) : M unit :=
  require (negb (bool_decide (to = 0))) "ERC721: mint to the zero address" ;;
  e <- _exists tokenId ;;
  require (negb e) "ERC721: token already minted" ;;
  b <- read (λ s, default 0 (_balances s !! to)) ;;
  b' <- checked_add b 1 ;;
  write (λ s, set_balances (<[to := b']> (_balances s)) s) ;;
  write (λ s, set_owners (<[tokenId := to]> (_owners s)) s) ;;
  emit (Transfer 0 to tokenId).

(** The receiver hook: no call at all for an account without code (its
    callee answers at once), otherwise [onERC721Received] run by the
    recipient. *)
Definition _checkOnERC721Received (hook : external) : M bool :=
  λ s, let (s', ok) := hook s in Ok (ok, s').

Definition _safeMint (to : address) (tokenId : uint256) (hook : external) : M unit :=
  _mint to tokenId ;;
  ok <- _checkOnERC721Received hook ;;
  require ok "ERC721: transfer to non ERC721Receiver implementer".

Definition _burn (tokenId : uint256) : M unit :=
  o <- ownerOf tokenId ;;
  _approve 0 tokenId ;;
  b <- read (λ s, default 0 (_balances s !! o)) ;;
  b' <- checked_sub b 1 ;;
  write (λ s, set_balances (<[o := b']> (_balances s)) s) ;;
  write (λ s, set_owners (delete tokenId (_owners s)) s) ;;
  emit (Transfer o 0 tokenId).

Definition _transfer (from to : address) (tokenId : uint256) : M unit :=
  o <- ownerOf tokenId ;;
  require (bool_decide (o = from)) "ERC721: transfer of token that is not own" ;;
  require (negb (bool_decide (to = 0))) "ERC721: transfer to the zero address" ;;
  _approve 0 tokenId ;;
  bf <- read (λ s, default 0 (_balances s !! from)) ;;
  bf' <- checked_sub bf 1 ;;
  write (λ s, set_balances (<[from := bf']> (_balances s)) s) ;;
  bt <- read (λ s, default 0 (_balances s !! to)) ;;
  bt' <- checked_add bt 1 ;;
  write (λ s, set_balances (<[to := bt']> (_balances s)) s) ;;
  write (λ s, set_owners (<[tokenId := to]> (_owners s)) s) ;;
  emit (Transfer from to tokenId).

Definition approve (sender to : address) (tokenId : uint256) : M unit :=
  o <- ownerOf tokenId ;;
  require (negb (bool_decide (to = o))) "ERC721: approval to current owner" ;;
  all <- isApprovedForAll o sender ;;
  require (bool_decide (sender = o) || all)
    "ERC721: approve caller is not owner nor approved for all" ;;
  _approve to tokenId.

Definition setApprovalForAll (sender operator : address) (approved : bool) : M unit :=
  require (negb (bool_decide (sender = operator))) "ERC721: approve to caller" ;;
  write (λ s, set_operatorApprovals
                (<[(sender, operator) := approved]> (_operatorApprovals s)) s) ;;
  emit (ApprovalForAll sender operator approved).

Definition transferFrom (sender from to : address) (tokenId : uint256) : M unit :=
  ok <- _isApprovedOrOwner sender tokenId ;;
  require ok "ERC721: transfer caller is not owner nor approved" ;;
  _transfer from to tokenId.

Definition safeTransferFrom (sender from to : address) (tokenId : uint256)
    (hook : external) : M unit :=
  ok <- _isApprovedOrOwner sender tokenId ;;
  require ok "ERC721: transfer caller is not owner nor approved" ;;
  _transfer from to tokenId ;;
  ok <- _checkOnERC721Received hook ;;
  require ok "ERC721: transfer to non ERC721Receiver implementer".

(** [ERC721Burnable.burn]; its [_burn] is virtual and resolves to the
    override of the inheriting contract, passed here as [_burn]. *)
Definition burn (_burn : uint256 → M unit) (sender : address) (tokenId : uint256) : M unit :=
  ok <- _isApprovedOrOwner sender tokenId ;;
  require ok "ERC721Burnable: caller is not owner nor approved" ;;
  _burn tokenId.

End ERC721.

(** ** Calls into the contract *)

(** The externally callable state-changing functions with their arguments.
    A function that makes an external call carries the [callee] describing
    what the foreign code does with the control it is given: [reenter a c k]
    has it call [c] on this contract with [a] as message sender (a call that
    reverts is caught and changes nothing) and go on as [k]; [answer ok] ends
    it, with [ok = false] when it reverts or, for the receiver hook, returns
    anything but the expected selector. *)
Inductive call : Type :=
| Receive (value : uint256)
| Withdraw (k : callee)
| MintAuthorized (recipient : address) (id : uint256) (uri : string) (k : callee)
| Mint (value id : uint256) (uri : string) (signature : list Byte.byte) (k : callee)
| RevokeId (id : uint256)
| SetIdFloor (floor : uint256)
| Burn (id : uint256)
| Approve (to : address) (tokenId : uint256)
| SetApprovalForAll (operator : address) (approved : bool)
| TransferFrom (from to : address) (tokenId : uint256)
| SafeTransferFrom (from to : address) (tokenId : uint256) (k : callee)
with callee : Type :=
| answer (ok : bool)
| reenter (sender : address) (c : call) (k : callee).

(** ** The contract *)

Section NFTagent.

(** [_hash] (lines 153-160) is the EIP-712 digest of the terms under the
    contract's domain separator and [ECDSA.recover] the library's signer
    recovery, which reverts on a malformed signature.  Both are fixed
    functions of their arguments; the lifecycle does not depend on which. *)
Variable _hash : uint256 → uint256 → string → bytes32.
Variable ECDSA_recover : bytes32 → list Byte.byte → result address.

(** Lines 32-40.  The token name and symbol are not modelled; [funds] is
    what the account holds when the contract is created. *)
Definition constructor (sender : address) (funds : uint256) : state :=
  {| owner := sender; totalSupply := 0; idFloor := 0;
     tokenURIs := ∅; revokedIds := ∅;
     _owners := ∅; _balances := ∅; _tokenApprovals := ∅;
     _operatorApprovals := ∅;
     balance := funds; events := [] |}.

(** A payable function is entered with the attached value already added to
    the contract's balance. *)
Definition payable (value : uint256) : M unit :=
  write (λ s, set_balance (balance s + value) s).

(** [to.call{value: v}("")]: the value leaves the balance, the recipient's
    code runs, and if it fails everything it did is undone, the transfer
    included. *)
Definition call_value (value : uint256) (recipient : external) : M bool :=
  λ s, if bool_decide (value ≤ balance s)
       then let (s', ok) := recipient (set_balance (balance s - value) s) in
            if ok then Ok (true, s') else Ok (false, s)
       else Ok (false, s).

(** Lines 42-44. *)
Definition receive (value : uint256) : M unit :=
  emit (Receipt value).

(** Lines 46-52. *)
Definition withdraw (sender : address) (recipient : external) : M unit :=
  o <- read owner ;;
  require (bool_decide (sender = o)) "unauthorized to withdraw" ;;
  bal <- read balance ;;
  success <- call_value bal recipient ;;
  require success "transfer failed" ;;
  emit (Withdrawal bal).

(** Lines 97-102. *)
Definition vacant (id : uint256) : M bool :=
  e <- ERC721._exists id ;;
  require (negb e) "tokenId already minted" ;;
  floor <- read idFloor ;;
  require (bool_decide (floor ≤ id)) "tokenId below floor" ;;
  r <- read (λ s, default false (revokedIds s !! id)) ;;
  require (negb r) "tokenId revoked or burnt" ;;
  ret true.

(** Lines 86-90. *)
Definition mintable (weiPrice id : uint256) (uri : string)
    (signature : list Byte.byte) : M bool :=
  v <- vacant id ;;
  require v "" ;;
  signer <- lift (ECDSA_recover (_hash weiPrice id uri) signature) ;;
  o <- read owner ;;
  require (bool_decide (o = signer)) "signature invalid or signer unauthorized" ;;
  ret true.

(** Lines 165-168. *)
Definition _setTokenURI (id : uint256) (uri : string) : M unit :=
  require (negb (bool_decide (String.length uri = 0%nat))) "tokenURI cannot be empty" ;;
  write (λ s, set_tokenURIs (<[id := uri]> (tokenURIs s)) s).

(** Lines 144-148. *)
Definition _mint (recipient : address) (id : uint256) (uri : string)
    (hook : external) : M unit :=
  ERC721._safeMint recipient id hook ;;
  _setTokenURI id uri ;;
  t <- read totalSupply ;;
  t' <- checked_add t 1 ;;
  write (set_totalSupply t').

(** Lines 173-178. *)
Definition _burn (id : uint256) : M unit :=
  ERC721._burn id ;;
  write (λ s, set_tokenURIs (delete id (tokenURIs s)) s) ;;
  write (λ s, set_revokedIds (<[id := true]> (revokedIds s)) s) ;;
  t <- read totalSupply ;;
  t' <- checked_sub t 1 ;;
  write (set_totalSupply t').

(** Lines 60-64. *)
Definition mintAuthorized (sender recipient : address) (id : uint256)
    (uri : string) (hook : external) : M unit :=
  o <- read owner ;;
  require (bool_decide (sender = o)) "unauthorized to mint" ;;
  v <- vacant id ;;
  require v "" ;;
  _mint recipient id uri hook.

(** Lines 73-76; [value] is [msg.value]. *)
Definition mint (sender : address) (value id : uint256) (uri : string)
    (signature : list Byte.byte) (hook : external) : M unit :=
  ok <- mintable value id uri signature ;;
  require ok "" ;;
  _mint sender id uri hook.

(** Lines 108-113.  Line 112 invokes [IdRevoked] without the [emit] keyword
    of lines 43 and 51; the event is logged all the same. *)
Definition revokeId (sender : address) (id : uint256) : M unit :=
  o <- read owner ;;
  require (bool_decide (sender = o)) "unauthorized to revoke id" ;;
  v <- vacant id ;;
  require v "" ;;
  write (λ s, set_revokedIds (<[id := true]> (revokedIds s)) s) ;;
  invoke (IdRevoked id).

(** Lines 119-124.  Line 123 invokes [IdFloorSet], again without the
    keyword, on the floor read back from storage. *)
Definition setIdFloor (sender : address) (floor : uint256) : M unit :=
  o <- read owner ;;
  require (bool_decide (sender = o)) "unauthorized to set idFloor" ;;
  current <- read idFloor ;;
  require (bool_decide (current < floor)) "must exceed current floor" ;;
  write (set_idFloor floor) ;;
  stored <- read idFloor ;;
  invoke (IdFloorSet stored).

(** Lines 130-132. *)
Definition tokenURI (id : uint256) : M string :=
  read (λ s, default "" (tokenURIs s !! id)).

(** [burn] as inherited from [ERC721Burnable], over the override [_burn]. *)
Definition burn (sender : address) (id : uint256) : M unit :=
  ERC721.burn _burn sender id.

(** Dispatch of a call from [sender], and the effect of a callee. *)
Fixpoint exec (sender : address) (c : call) {struct c} : M unit :=
  match c with
  | Receive value => payable value ;; receive value
  | Withdraw k => withdraw sender (perform k)
  | MintAuthorized recipient id uri k =>
      mintAuthorized sender recipient id uri (perform k)
  | Mint value id uri signature k =>
      payable value ;; mint sender value id uri signature (perform k)
  | RevokeId id => revokeId sender id
  | SetIdFloor floor => setIdFloor sender floor
  | Burn id => burn sender id
  | Approve to tokenId => ERC721.approve sender to tokenId
  | SetApprovalForAll operator approved =>
      ERC721.setApprovalForAll sender operator approved
  | TransferFrom from to tokenId => ERC721.transferFrom sender from to tokenId
  | SafeTransferFrom from to tokenId k =>
      ERC721.safeTransferFrom sender from to tokenId (perform k)
  end
with perform (k : callee) {struct k} : external :=
  match k with
  | answer ok => λ s, (s, ok)
  | reenter a c k' =>
      λ s, match exec a c s with
           | Ok (_, s') => perform k' s'
           | Revert _ => perform k' s
           end
  end.

(** A transaction: the call takes effect as a whole or not at all. *)
Definition transact (s : state) (t : address * call) : state :=
  match exec t.1 t.2 s with
  | Ok (_, s') => s'
  | Revert _ => s
  end.

Definition run (ts : list (address * call)) (s : state) : state :=
  fold_left transact ts s.

(** ** Derived lifecycle state *)

(** An identifier is claimed while it has a holder ([_exists]), and revoked
    once its flag in [revokedIds] is set. *)
Definition claimed (s : state) (id : uint256) : bool :=
  negb (bool_decide (default 0 (_owners s !! id) = 0)).

Definition revoked (s : state) (id : uint256) : bool :=
  default false (revokedIds s !! id).

(** The identifiers that currently have a holder, and their number. *)
Definition claimed_ids (s : state) : gmap N N :=
  filter (λ p, p.2 ≠ 0) (_owners s).

Definition claimed_count (s : state) : N :=
  N.of_nat (size (claimed_ids s)).

(** The principal stays, the floor does not go down, and a revoked identifier
    stays revoked. *)
Definition evolves (s s' : state) : Prop :=
  owner s' = owner s ∧
  idFloor s ≤ idFloor s' ∧
  ∀ id, revoked s id = true → revoked s' id = true.

(** By how much the claimed identifiers outnumber the supply counter. *)
Definition surplus (s : state) : Z :=
  (Z.of_N (claimed_count s) - Z.of_N (totalSupply s))%Z.

(** The surplus is the same before and after. *)
Definition balanced (s s' : state) : Prop := surplus s' = surplus s.

(** The three reasons [vacant] gives. *)
Definition availability_error (e : failure) : Prop :=
  e = Error "tokenId already minted" ∨
  e = Error "tokenId below floor" ∨
  e = Error "tokenId revoked or burnt".

(** An identifier is spent once it is claimed or revoked. *)
Definition spent (s : state) (id : uint256) : bool :=
  claimed s id || revoked s id.

(** What is spent before is spent after. *)
Definition stays_spent (s s' : state) : Prop :=
  ∀ id, spent s id = true → spent s' id = true.

(** A call is quiet when the foreign code it hands control to makes no call
    back into the contract. *)
Definition quiet (c : call) : bool :=
  match c with
  | Withdraw (reenter _ _ _)
  | MintAuthorized _ _ _ (reenter _ _ _)
  | Mint _ _ _ _ (reenter _ _ _)
  | SafeTransferFrom _ _ _ (reenter _ _ _) => false
  | _ => true
  end.

(** Only claimed identifiers have a metadata pointer. *)
Definition pointers_claimed (s : state) : Prop :=
  ∀ id, claimed s id = false → default "" (tokenURIs s !! id) = "".

(** If it was so before, it is so after. *)
Definition keeps_pointers (s s' : state) : Prop :=
  pointers_claimed s → pointers_claimed s'.

(** ** Reasoning about computations *)

Lemma bind_Ok {A B} (c : M A) (k : A → M B) s b s' :
  bind c k s = Ok (b, s') → ∃ a s1, c s = Ok (a, s1) ∧ k a s1 = Ok (b, s').
Proof.
  unfold bind. destruct (c s) as [[a s1]|e]; [|discriminate]. eauto.
Qed.

Lemma bind_step {A B} (c : M A) (k : A → M B) s a s1 :
  c s = Ok (a, s1) → bind c k s = k a s1.
Proof. unfold bind. by intros ->. Qed.

Lemma bind_fail {A B} (c : M A) (k : A → M B) s e :
  c s = Revert e → bind c k s = Revert e.
Proof. unfold bind. by intros ->. Qed.

Lemma require_Ok cond reason s u s' :
  require cond reason s = Ok (u, s') → cond = true ∧ s' = s.
Proof. unfold require. destruct cond; [|discriminate]. by intros [= _ ->]. Qed.

Lemma read_Ok {A} (f : state → A) s a s' :
  read f s = Ok (a, s') → a = f s ∧ s' = s.
Proof. by intros [= <- <-]. Qed.

Lemma write_Ok f s u s' : write f s = Ok (u, s') → s' = f s.
Proof. by intros [= <-]. Qed.

Lemma ret_Ok {A} (a : A) s b s' : ret a s = Ok (b, s') → b = a ∧ s' = s.
Proof. by intros [= <- <-]. Qed.

Lemma lift_Ok {A} (r : result A) s a s' :
  lift r s = Ok (a, s') → r = Ok a ∧ s' = s.
Proof. unfold lift. destruct r; [|discriminate]. by intros [= <- <-]. Qed.

Lemma checked_add_Ok x y s z s' :
  checked_add x y s = Ok (z, s') → z = x + y ∧ x + y < 2 ^ 256 ∧ s' = s.
Proof.
  unfold checked_add. case_bool_decide; [|discriminate]. by intros [= <- <-].
Qed.

Lemma checked_sub_Ok x y s z s' :
  checked_sub x y s = Ok (z, s') → z = x - y ∧ y ≤ x ∧ s' = s.
Proof.
  unfold checked_sub. case_bool_decide; [|discriminate]. by intros [= <- <-].
Qed.

Lemma hook_Ok (hook : external) s ok s' :
  ERC721._checkOnERC721Received hook s = Ok (ok, s') → hook s = (s', ok).
Proof.
  unfold ERC721._checkOnERC721Received. destruct (hook s). by intros [= <- <-].
Qed.

(** Take a successful run of a computation apart, one statement at a time. *)
Ltac run_inv :=
  repeat match goal with
  | H : bind _ _ _ = Ok _ |- _ =>
      let a := fresh "a" in let s := fresh "s" in let E := fresh "E" in
      apply bind_Ok in H as (a & s & E & H)
  | H : require _ _ _ = Ok _ |- _ => apply require_Ok in H as [H ->]
  | H : read _ _ = Ok _ |- _ => apply read_Ok in H as [-> ->]
  | H : write _ _ = Ok _ |- _ => apply write_Ok in H as ->
  | H : emit _ _ = Ok _ |- _ => apply write_Ok in H as ->
  | H : invoke _ _ = Ok _ |- _ => apply write_Ok in H as ->
  | H : ret _ _ = Ok _ |- _ => apply ret_Ok in H as [-> ->]
  | H : lift _ _ = Ok _ |- _ => apply lift_Ok in H as [H ->]
  | H : checked_add _ _ _ = Ok _ |- _ => apply checked_add_Ok in H as (-> & H & ->)
  | H : checked_sub _ _ _ = Ok _ |- _ => apply checked_sub_Ok in H as (-> & H & ->)
  | H : ERC721._exists _ _ = Ok _ |- _ => apply read_Ok in H as [-> ->]
  | H : ERC721.isApprovedForAll _ _ _ = Ok _ |- _ => apply read_Ok in H as [-> ->]
  | H : ERC721._checkOnERC721Received _ _ = Ok _ |- _ => apply hook_Ok in H
  | H : ?b = true |- _ => is_var b; subst b
  | H : negb _ = true |- _ => apply negb_true_iff in H
  | H : bool_decide _ = true |- _ => apply bool_decide_eq_true_1 in H
  | H : bool_decide _ = false |- _ => apply bool_decide_eq_false_1 in H
  end.

(** ** The availability check *)

Lemma exists_claimed s id : ERC721._exists id s = Ok (claimed s id, s).
Proof. reflexivity. Qed.

(** [vacant] as one case analysis on the derived lifecycle state. *)
Lemma vacant_eval s id :
  vacant id s =
    if claimed s id then Revert (Error "tokenId already minted")
    else if bool_decide (idFloor s ≤ id)
    then if revoked s id then Revert (Error "tokenId revoked or burnt")
         else Ok (true, s)
    else Revert (Error "tokenId below floor").
Proof.
  unfold vacant, claimed, revoked, ERC721._exists, bind, read, require, ret.
  cbn. destruct (bool_decide (default 0 (_owners s !! id) = 0)); cbn; [|done].
  destruct (bool_decide (idFloor s ≤ id)); cbn; [|done].
  by destruct (default false (revokedIds s !! id)).
Qed.

Lemma vacant_Ok s id b s' :
  vacant id s = Ok (b, s') →
  b = true ∧ s' = s ∧
  claimed s id = false ∧ revoked s id = false ∧ idFloor s ≤ id.
Proof.
  rewrite vacant_eval. destruct (claimed s id); [done|].
  case_bool_decide; [|done]. destruct (revoked s id); [done|].
  by intros [= <- <-].
Qed.

(** C1.  For every identifier, [vacant] returns true exactly when the
    identifier is not claimed, not revoked and not below the floor; it never
    returns false, and when a condition is violated it reverts with the
    reason of a violated condition: already minted, below floor, or revoked
    or burnt. *)
Theorem vacant_iff_available (s : state) (id : uint256) :
  (vacant id s = Ok (true, s) ↔
     claimed s id = false ∧ revoked s id = false ∧ idFloor s ≤ id)
  ∧ (∀ s', vacant id s ≠ Ok (false, s'))
  ∧ (claimed s id = true →
       vacant id s = Revert (Error "tokenId already minted"))
  ∧ (claimed s id = false → id < idFloor s →
       vacant id s = Revert (Error "tokenId below floor"))
  ∧ (claimed s id = false → idFloor s ≤ id → revoked s id = true →
       vacant id s = Revert (Error "tokenId revoked or burnt")).
Proof.
  split; [split|split; [|split; [|split]]].
  - intros H. by apply vacant_Ok in H as (_ & _ & ? & ? & ?).
  - intros (Hc & Hr & Hf). rewrite vacant_eval, Hc, Hr.
    by rewrite bool_decide_eq_true_2.
  - intros s' H. by apply vacant_Ok in H as (? & _).
  - intros Hc. by rewrite vacant_eval, Hc.
  - intros Hc Hf. rewrite vacant_eval, Hc.
    rewrite bool_decide_eq_false_2; [done|lia].
  - intros Hc Hf Hr. rewrite vacant_eval, Hc, Hr.
    by rewrite bool_decide_eq_true_2.
Qed.

(** ** Relations kept by every successful computation *)

Section Preservation.

Context (R : relation state) `{!PreOrder R}.

Definition preserves {A} (c : M A) : Prop :=
  ∀ s a s', c s = Ok (a, s') → R s s'.

Lemma preserves_ret {A} (a : A) : preserves (ret a).
Proof. by intros s b s' [-> ->]%ret_Ok. Qed.

Lemma preserves_bind {A B} (c : M A) (k : A → M B) :
  preserves c → (∀ a, preserves (k a)) → preserves (bind c k).
Proof.
  intros Hc Hk s b s' (a & s1 & Ha & Hb)%bind_Ok.
  transitivity s1; [by eapply Hc | by eapply Hk].
Qed.

Lemma preserves_require cond reason : preserves (require cond reason).
Proof. by intros s u s' [_ ->]%require_Ok. Qed.

Lemma preserves_read {A} (f : state → A) : preserves (read f).
Proof. by intros s a s' [_ ->]%read_Ok. Qed.

Lemma preserves_lift {A} (r : result A) : preserves (lift r).
Proof. by intros s a s' [_ ->]%lift_Ok. Qed.

Lemma preserves_checked_add x y : preserves (checked_add x y).
Proof. by intros s a s' (_ & _ & ->)%checked_add_Ok. Qed.

Lemma preserves_checked_sub x y : preserves (checked_sub x y).
Proof. by intros s a s' (_ & _ & ->)%checked_sub_Ok. Qed.

Lemma preserves_write f : (∀ s, R s (f s)) → preserves (write f).
Proof. by intros Hf s u s' ->%write_Ok. Qed.

Lemma preserves_hook (hook : external) :
  (∀ s, R s (hook s).1) →
  preserves (ERC721._checkOnERC721Received hook).
Proof. intros Hh s ok s' H%hook_Ok. specialize (Hh s). by rewrite H in Hh. Qed.

Lemma preserves_call_value value (recipient : external) :
  (∀ s, R s (set_balance (balance s - value) s)) →
  (∀ s, R s (recipient s).1) →
  preserves (call_value value recipient).
Proof.
  intros Hb Hr s ok s'. unfold call_value.
  case_bool_decide; [|by intros [= _ <-]].
  specialize (Hr (set_balance (balance s - value) s)).
  destruct (recipient _) as [s1 []]; intros [= _ <-]; [|done].
  by transitivity (set_balance (balance s - value) s).
Qed.

End Preservation.

(** Break a computation into its statements, leaving the storage writes and
    the external calls. *)
Ltac preserve :=
  repeat match goal with
  | |- preserves ?R (bind _ _) => apply (preserves_bind R); [|intros ?]
  | |- preserves ?R (ret _) => apply (preserves_ret R)
  | |- preserves ?R (require _ _) => apply (preserves_require R)
  | |- preserves ?R (read _) => apply (preserves_read R)
  | |- preserves ?R (lift _) => apply (preserves_lift R)
  | |- preserves ?R (checked_add _ _) => apply (preserves_checked_add R)
  | |- preserves ?R (checked_sub _ _) => apply (preserves_checked_sub R)
  end.

Scheme call_callee_ind := Induction for call Sort Prop
  with callee_call_ind := Induction for callee Sort Prop.
Combined Scheme call_mutind from call_callee_ind, callee_call_ind.

(** A relation between the storage before and after is kept by every call,
    whatever the foreign code does, as soon as it is kept by the writes that
    leave ownership and supply alone, by revoking an identifier, by raising
    the floor, and by the three functions that change ownership. *)
Section Stable.

Context (R : relation state) `{!PreOrder R}.

Hypothesis stable_balances : ∀ s v, R s (set_balances v s).
Hypothesis stable_tokenApprovals : ∀ s v, R s (set_tokenApprovals v s).
Hypothesis stable_operatorApprovals : ∀ s v, R s (set_operatorApprovals v s).
Hypothesis stable_events : ∀ s v, R s (set_events v s).
Hypothesis stable_balance : ∀ s v, R s (set_balance v s).
Hypothesis stable_revoke :
  ∀ s id, R s (set_revokedIds (<[id := true]> (revokedIds s)) s).
Hypothesis stable_raise :
  ∀ s floor, idFloor s < floor → R s (set_idFloor floor s).
Hypothesis stable_mint :
  ∀ recipient id uri (hook : external),
    (∀ s, R s (hook s).1) → preserves R (_mint recipient id uri hook).
Hypothesis stable_burn : ∀ id, preserves R (_burn id).
Hypothesis stable_transfer :
  ∀ from to id, preserves R (ERC721._transfer from to id).

Lemma preserves_emit e : preserves R (emit e).
Proof. by apply preserves_write. Qed.

Lemma preserves_invoke e : preserves R (invoke e).
Proof. by apply preserves_write. Qed.

Lemma preserves_vacant id : preserves R (vacant id).
Proof. by intros s b s' (_ & -> & _)%vacant_Ok. Qed.

Lemma preserves_mintable weiPrice id uri signature :
  preserves R (mintable weiPrice id uri signature).
Proof. unfold mintable. preserve. apply preserves_vacant. Qed.

Lemma preserves_isApprovedOrOwner spender id :
  preserves R (ERC721._isApprovedOrOwner spender id).
Proof.
  unfold ERC721._isApprovedOrOwner, ERC721.getApproved, ERC721.ownerOf,
    ERC721._exists, ERC721.isApprovedForAll.
  preserve.
Qed.

Lemma preserves_approve sender to id :
  preserves R (ERC721.approve sender to id).
Proof.
  unfold ERC721.approve, ERC721._approve, ERC721.ownerOf,
    ERC721.isApprovedForAll.
  preserve; first [by apply preserves_write | apply preserves_emit].
Qed.

Lemma preserves_setApprovalForAll sender operator approved :
  preserves R (ERC721.setApprovalForAll sender operator approved).
Proof.
  unfold ERC721.setApprovalForAll.
  preserve; first [by apply preserves_write | apply preserves_emit].
Qed.

Lemma preserves_receive value : preserves R (payable value ;; receive value).
Proof.
  unfold payable, receive.
  preserve; first [by apply preserves_write | apply preserves_emit].
Qed.

Lemma preserves_revokeId sender id : preserves R (revokeId sender id).
Proof.
  unfold revokeId.
  preserve;
    first [apply preserves_vacant | by apply preserves_write | apply preserves_invoke].
Qed.

Lemma preserves_setIdFloor sender floor : preserves R (setIdFloor sender floor).
Proof.
  intros s u s' H. unfold setIdFloor in H. run_inv. cbn.
  etrans; [by apply stable_raise|]. apply stable_events.
Qed.

Lemma preserves_withdraw sender (recipient : external) :
  (∀ s, R s (recipient s).1) → preserves R (withdraw sender recipient).
Proof.
  intros Hr. unfold withdraw.
  preserve; first [by apply (preserves_call_value R) | apply preserves_emit].
Qed.

Lemma preserves_mintAuthorized sender recipient id uri (hook : external) :
  (∀ s, R s (hook s).1) →
  preserves R (mintAuthorized sender recipient id uri hook).
Proof.
  intros Hh. unfold mintAuthorized.
  preserve; first [apply preserves_vacant | by apply stable_mint].
Qed.

Lemma preserves_mint sender value id uri signature (hook : external) :
  (∀ s, R s (hook s).1) →
  preserves R (payable value ;; mint sender value id uri signature hook).
Proof.
  intros Hh. unfold payable, mint.
  preserve;
    first [by apply preserves_write | apply preserves_mintable | by apply stable_mint].
Qed.

Lemma preserves_burn sender id : preserves R (burn sender id).
Proof.
  unfold burn, ERC721.burn.
  preserve; first [apply preserves_isApprovedOrOwner | apply stable_burn].
Qed.

Lemma preserves_transferFrom sender from to id :
  preserves R (ERC721.transferFrom sender from to id).
Proof.
  unfold ERC721.transferFrom.
  preserve; first [apply preserves_isApprovedOrOwner | apply stable_transfer].
Qed.

Lemma preserves_safeTransferFrom sender from to id (hook : external) :
  (∀ s, R s (hook s).1) →
  preserves R (ERC721.safeTransferFrom sender from to id hook).
Proof.
  intros Hh. unfold ERC721.safeTransferFrom.
  preserve; first [apply preserves_isApprovedOrOwner | apply stable_transfer
          | by apply (preserves_hook R)].
Qed.

Lemma exec_perform_preserve :
  (∀ c sender, preserves R (exec sender c)) ∧
  (∀ k s, R s (perform k s).1).
Proof.
  apply call_mutind; cbn [exec perform]; intros.
  - apply preserves_receive.
  - by apply preserves_withdraw.
  - by apply preserves_mintAuthorized.
  - by apply preserves_mint.
  - apply preserves_revokeId.
  - apply preserves_setIdFloor.
  - apply preserves_burn.
  - apply preserves_approve.
  - apply preserves_setApprovalForAll.
  - apply preserves_transferFrom.
  - by apply preserves_safeTransferFrom.
  - done.
  - destruct (exec sender c s) as [[[] s1]|e] eqn:E; [|done].
    transitivity s1; [by eapply H|done].
Qed.

Lemma transact_preserve s t : R s (transact s t).
Proof.
  unfold transact. destruct (exec t.1 t.2 s) as [[[] s']|e] eqn:E; [|done].
  by eapply exec_perform_preserve.
Qed.

Lemma run_preserve ts s : R s (run ts s).
Proof.
  revert s. induction ts as [|t ts IH]; intros s; cbn; [done|].
  transitivity (transact s t); [apply transact_preserve | apply IH].
Qed.

End Stable.

(** ** What no call undoes *)

#[local] Instance evolves_preorder : PreOrder evolves.
Proof.
  split.
  - intros s. unfold evolves. split_and!; [done|lia|done].
  - intros s1 s2 s3 (Ho & Hf & Hr) (Ho' & Hf' & Hr').
    unfold evolves. split_and!; [congruence|lia|auto].
Qed.

Lemma revoked_insert s id id' :
  revoked s id' = true →
  revoked (set_revokedIds (<[id := true]> (revokedIds s)) s) id' = true.
Proof.
  unfold revoked. cbn. destruct (decide (id = id')) as [->|Hne].
  - by rewrite lookup_insert_eq.
  - by rewrite lookup_insert_ne.
Qed.

(** Writes and external calls left by [preserve], for [evolves]. *)
Ltac evolve :=
  preserve;
  try match goal with
  | |- preserves evolves (write _) =>
      apply (preserves_write evolves); intros ?; unfold evolves, revoked; cbn;
      split_and!; [done|lia|done]
  | |- preserves evolves (emit _) =>
      apply (preserves_write evolves); intros ?; unfold evolves, revoked; cbn;
      split_and!; [done|lia|done]
  | |- preserves evolves (ERC721._checkOnERC721Received _) =>
      by apply (preserves_hook evolves)
  end.

Lemma evolves_mint recipient id uri (hook : external) :
  (∀ s, evolves s (hook s).1) → preserves evolves (_mint recipient id uri hook).
Proof.
  intros Hh.
  unfold _mint, _setTokenURI, ERC721._safeMint, ERC721._mint, ERC721._exists.
  evolve.
Qed.

Lemma evolves_burn id : preserves evolves (_burn id).
Proof.
  unfold _burn, ERC721._burn, ERC721._approve, ERC721.ownerOf.
  evolve.
  apply (preserves_write evolves). intros s. unfold evolves. cbn.
  split_and!; [done|lia|]. intros id'. apply revoked_insert.
Qed.

Lemma evolves_transfer from to id : preserves evolves (ERC721._transfer from to id).
Proof.
  unfold ERC721._transfer, ERC721._approve, ERC721.ownerOf.
  evolve.
Qed.

Lemma evolves_run ts s : evolves s (run ts s).
Proof.
  apply (run_preserve evolves);
    try (intros; unfold evolves, revoked; cbn; split_and!; [done|lia|done]).
  - intros s0 id. unfold evolves. cbn. split_and!; [done|lia|].
    intros id'. apply revoked_insert.
  - apply evolves_mint.
  - apply evolves_burn.
  - apply evolves_transfer.
Qed.

Lemma evolves_exec sender c s u s' : exec sender c s = Ok (u, s') → evolves s s'.
Proof.
  intros H. replace s' with (run [(sender, c)] s); [apply evolves_run|].
  cbn. unfold transact. cbn. by rewrite H.
Qed.

(** ** Revocation and the floor *)

Lemma setIdFloor_eval sender floor s :
  setIdFloor sender floor s =
    if bool_decide (sender = owner s)
    then if bool_decide (idFloor s < floor)
         then Ok (tt, set_events (events s ++ [IdFloorSet floor]) (set_idFloor floor s))
         else Revert (Error "must exceed current floor")
    else Revert (Error "unauthorized to set idFloor").
Proof.
  unfold setIdFloor, bind, read, require, write, invoke, emit, ret. cbn.
  destruct (bool_decide (sender = owner s)); cbn; [|done].
  by destruct (bool_decide (idFloor s < floor)).
Qed.

Lemma revokeId_eval sender id s :
  revokeId sender id s =
    if bool_decide (sender = owner s)
    then match vacant id s with
         | Ok _ =>
             Ok (tt, set_events (events s ++ [IdRevoked id])
                       (set_revokedIds (<[id := true]> (revokedIds s)) s))
         | Revert e => Revert e
         end
    else Revert (Error "unauthorized to revoke id").
Proof.
  destruct (vacant id s) as [[b s1]|e] eqn:E.
  - pose proof (vacant_Ok _ _ _ _ E) as (-> & -> & _).
    unfold revokeId, bind, read, require, write, invoke, emit, ret.
    destruct (bool_decide (sender = owner s)); [|done]. by rewrite E.
  - unfold revokeId, bind, read, require, write, invoke, emit, ret.
    destruct (bool_decide (sender = owner s)); [|done]. by rewrite E.
Qed.

(** What a transaction leaves when its call reverts: the storage it found. *)
Lemma transact_revert s sender c e :
  exec sender c s = Revert e → transact s (sender, c) = s.
Proof. unfold transact. cbn. by intros ->. Qed.

Lemma transact_ok s sender c s' :
  exec sender c s = Ok (tt, s') → transact s (sender, c) = s'.
Proof. unfold transact. cbn. by intros ->. Qed.

(** C5.  [setIdFloor] succeeds exactly when the caller is the principal and
    the new floor is strictly greater than the current one, and the stored
    floor is then the new value; a caller other than the principal gets the
    reason "unauthorized to set idFloor", a value that is not strictly greater
    the reason "must exceed current floor", and in both cases the transaction
    leaves the storage, the floor with it, as it was; along any sequence of
    transactions the floor never goes down. *)
Theorem setIdFloor_monotone (s : state) (sender : address) (floor : uint256) :
  ((∃ s', setIdFloor sender floor s = Ok (tt, s')) ↔
     sender = owner s ∧ idFloor s < floor)
  ∧ (∀ s', setIdFloor sender floor s = Ok (tt, s') → idFloor s' = floor)
  ∧ (sender ≠ owner s →
       setIdFloor sender floor s = Revert (Error "unauthorized to set idFloor")
       ∧ transact s (sender, SetIdFloor floor) = s)
  ∧ (sender = owner s → floor ≤ idFloor s →
       setIdFloor sender floor s = Revert (Error "must exceed current floor")
       ∧ transact s (sender, SetIdFloor floor) = s)
  ∧ (∀ ts, idFloor s ≤ idFloor (run ts s)).
Proof.
  rewrite setIdFloor_eval. split_and!.
  - split.
    + intros [s' H]. by repeat case_bool_decide.
    + intros [Ho Hf]. rewrite !bool_decide_eq_true_2 by done. eauto.
  - intros s' H. repeat case_bool_decide; try done. by injection H as <-.
  - intros Ho. rewrite bool_decide_eq_false_2 by done. split; [done|].
    eapply transact_revert. cbn [exec]. rewrite setIdFloor_eval.
    by rewrite bool_decide_eq_false_2.
  - intros Ho Hf. rewrite bool_decide_eq_true_2 by done.
    rewrite bool_decide_eq_false_2 by lia. split; [done|].
    eapply transact_revert. cbn [exec]. rewrite setIdFloor_eval.
    rewrite bool_decide_eq_true_2 by done. by rewrite bool_decide_eq_false_2 by lia.
  - intros ts. apply evolves_run.
Qed.

(** What the two functions leave behind: the flag, respectively the floor,
    and the log they found with their one entry after it. *)
Lemma revokeId_setIdFloor_effect (s : state) (sender : address) :
  (∀ id s', revokeId sender id s = Ok (tt, s') →
     s' = set_events (events s ++ [IdRevoked id])
            (set_revokedIds (<[id := true]> (revokedIds s)) s))
  ∧ (∀ floor s', setIdFloor sender floor s = Ok (tt, s') →
       s' = set_events (events s ++ [IdFloorSet floor]) (set_idFloor floor s)).
Proof.
  split.
  - intros id s'. rewrite revokeId_eval. case_bool_decide; [|done].
    destruct (vacant id s); [|done]. by intros [= <-].
  - intros floor s'. rewrite setIdFloor_eval.
    repeat case_bool_decide; try done. by intros [= <-].
Qed.

(** C6.  Every successful [revokeId] adds one [IdRevoked] entry carrying
    the identifier to the log, and every successful [setIdFloor] one
    [IdFloorSet] entry carrying the new floor.  The entry and the state
    change come together: the transaction that succeeds leaves the flag set,
    respectively the floor stored, and the log longer by exactly that entry,
    with nothing else changed; the transaction whose call reverts leaves the
    storage and the log as they were. *)
Theorem revoke_and_raise_log_their_event (s : state) (sender : address) :
  (∀ id s', revokeId sender id s = Ok (tt, s') →
     events s' = events s ++ [IdRevoked id]
     ∧ revoked s' id = true
     ∧ s' = set_events (events s ++ [IdRevoked id])
              (set_revokedIds (<[id := true]> (revokedIds s)) s)
     ∧ transact s (sender, RevokeId id) = s')
  ∧ (∀ id e, revokeId sender id s = Revert e →
       transact s (sender, RevokeId id) = s)
  ∧ (∀ floor s', setIdFloor sender floor s = Ok (tt, s') →
       events s' = events s ++ [IdFloorSet floor]
       ∧ idFloor s' = floor
       ∧ s' = set_events (events s ++ [IdFloorSet floor]) (set_idFloor floor s)
       ∧ transact s (sender, SetIdFloor floor) = s')
  ∧ (∀ floor e, setIdFloor sender floor s = Revert e →
       transact s (sender, SetIdFloor floor) = s).
Proof.
  destruct (revokeId_setIdFloor_effect s sender) as [Hrevoke Hraise].
  split_and!.
  - intros id s' H. pose proof (Hrevoke id s' H) as ->.
    split_and!; [done| |done|by apply transact_ok].
    unfold revoked. cbn. by rewrite lookup_insert_eq.
  - intros id e H. by eapply transact_revert.
  - intros floor s' H. pose proof (Hraise floor s' H) as ->.
    split_and!; [done|done|done|by apply transact_ok].
  - intros floor e H. by eapply transact_revert.
Qed.

(** C7.  Raising the floor writes no per-identifier state: the holders, the
    revoked flags and the metadata pointers are those of before, for every
    identifier; and afterwards an unclaimed, unrevoked identifier fails
    [vacant] with "tokenId below floor" when it is below the new floor and
    passes it otherwise. *)
Theorem setIdFloor_frame (s s' : state) (sender : address) (floor : uint256) :
  setIdFloor sender floor s = Ok (tt, s') →
  idFloor s < floor
  ∧ _owners s' = _owners s ∧ revokedIds s' = revokedIds s
  ∧ tokenURIs s' = tokenURIs s
  ∧ (∀ id, claimed s' id = claimed s id ∧ revoked s' id = revoked s id
           ∧ tokenURI id s' = Ok (default "" (tokenURIs s !! id), s'))
  ∧ (∀ id, claimed s id = false → revoked s id = false →
       (id < floor → vacant id s' = Revert (Error "tokenId below floor"))
       ∧ (floor ≤ id → vacant id s' = Ok (true, s'))).
Proof.
  rewrite setIdFloor_eval. repeat case_bool_decide; try done. intros [= <-].
  split_and!; try done.
  intros id Hc Hr. rewrite vacant_eval. unfold claimed, revoked in *. cbn.
  rewrite Hc, Hr. split; intros Hid.
  - by rewrite bool_decide_eq_false_2 by lia.
  - by rewrite bool_decide_eq_true_2 by lia.
Qed.

(** ** Supply and the number of claimed identifiers *)

Lemma claimed_lookup s id :
  claimed s id = true ↔ is_Some (claimed_ids s !! id).
Proof.
  unfold claimed, claimed_ids. rewrite negb_true_iff, bool_decide_eq_false.
  split.
  - intros H. destruct (_owners s !! id) as [o|] eqn:E; [|done].
    exists o. by apply map_lookup_filter_Some.
  - intros [o [E Ho]%map_lookup_filter_Some]. by rewrite E.
Qed.

Lemma size_claim (m : gmap N N) id to :
  default 0 (m !! id) = 0 → to ≠ 0 →
  size (filter (λ p, p.2 ≠ 0) (<[id := to]> m)) = S (size (filter (λ p, p.2 ≠ 0) m)).
Proof.
  intros Hfree Hto. rewrite map_filter_insert_True by done.
  apply map_size_insert_None, map_lookup_filter_None.
  destruct (m !! id) as [o|]; [right|by left]. intros x [= <-]. cbn in *. by intros [].
Qed.

Lemma size_release (m : gmap N N) id :
  default 0 (m !! id) ≠ 0 →
  S (size (filter (λ p, p.2 ≠ 0) (delete id m))) = size (filter (λ p, p.2 ≠ 0) m).
Proof.
  intros Hheld. rewrite map_filter_delete.
  destruct (m !! id) as [o|] eqn:E; [|done]. cbn in Hheld.
  assert (filter (λ p : N * N, p.2 ≠ 0) m !! id = Some o) as Hin
    by by apply map_lookup_filter_Some.
  rewrite map_size_delete, Hin.
  assert (size (filter (λ p : N * N, p.2 ≠ 0) m) ≠ 0%nat)
    by by eapply map_size_ne_0_lookup_2.
  lia.
Qed.

Lemma size_hand_over (m : gmap N N) id to :
  default 0 (m !! id) ≠ 0 → to ≠ 0 →
  size (filter (λ p, p.2 ≠ 0) (<[id := to]> m)) = size (filter (λ p, p.2 ≠ 0) m).
Proof.
  intros Hheld Hto. rewrite map_filter_insert_True by done.
  destruct (m !! id) as [o|] eqn:E; [|done]. cbn in Hheld.
  apply map_size_insert_Some. exists o. by apply map_lookup_filter_Some.
Qed.

#[local] Instance balanced_preorder : PreOrder balanced.
Proof. split; unfold balanced; [done|]. intros s1 s2 s3. congruence. Qed.

(** The ownership writes of the three functions that change holders. *)
Lemma ERC721_mint_Ok to id s u s' :
  ERC721._mint to id s = Ok (u, s') →
  to ≠ 0 ∧ claimed s id = false ∧
  _owners s' = <[id := to]> (_owners s) ∧
  totalSupply s' = totalSupply s ∧ tokenURIs s' = tokenURIs s ∧
  revokedIds s' = revokedIds s ∧ idFloor s' = idFloor s ∧ owner s' = owner s ∧
  balance s' = balance s.
Proof.
  intros H. unfold ERC721._mint in H. run_inv. cbn.
  unfold claimed. by split_and!.
Qed.

Lemma ERC721_burn_Ok id s u s' :
  ERC721._burn id s = Ok (u, s') →
  claimed s id = true ∧
  _owners s' = delete id (_owners s) ∧
  totalSupply s' = totalSupply s ∧ tokenURIs s' = tokenURIs s ∧
  revokedIds s' = revokedIds s ∧ idFloor s' = idFloor s ∧ owner s' = owner s ∧
  balance s' = balance s.
Proof.
  intros H. unfold ERC721._burn, ERC721._approve, ERC721.ownerOf in H.
  run_inv. cbn in *. unfold claimed. split_and!; try done.
  by rewrite bool_decide_eq_false_2.
Qed.

Lemma ERC721_transfer_Ok from to id s u s' :
  ERC721._transfer from to id s = Ok (u, s') →
  to ≠ 0 ∧ claimed s id = true ∧
  _owners s' = <[id := to]> (_owners s) ∧
  totalSupply s' = totalSupply s ∧ tokenURIs s' = tokenURIs s ∧
  revokedIds s' = revokedIds s ∧ idFloor s' = idFloor s ∧ owner s' = owner s ∧
  balance s' = balance s.
Proof.
  intros H. unfold ERC721._transfer, ERC721._approve, ERC721.ownerOf in H.
  run_inv. cbn in *. unfold claimed. split_and!; try done.
  by rewrite bool_decide_eq_false_2.
Qed.

Lemma mint_Ok recipient id uri (hook : external) s u s' :
  _mint recipient id uri hook s = Ok (u, s') →
  ∃ s1 s2, ERC721._mint recipient id s = Ok (tt, s1) ∧ hook s1 = (s2, true) ∧
           String.length uri ≠ 0%nat ∧
           s' = set_totalSupply (totalSupply s2 + 1)
                  (set_tokenURIs (<[id := uri]> (tokenURIs s2)) s2).
Proof.
  intros H. unfold _mint, ERC721._safeMint, _setTokenURI in H. run_inv.
  repeat match goal with x : unit |- _ => destruct x end.
  match goal with
  | H1 : ERC721._mint _ _ _ = Ok (_, ?s1), H2 : hook ?s1 = (?s2, _) |- _ =>
      exists s1, s2
  end.
  by split_and!.
Qed.

Lemma burn_Ok id s u s' :
  _burn id s = Ok (u, s') →
  ∃ s1, ERC721._burn id s = Ok (tt, s1) ∧ 1 ≤ totalSupply s1 ∧
        s' = set_totalSupply (totalSupply s1 - 1)
               (set_revokedIds (<[id := true]> (revokedIds s1))
                  (set_tokenURIs (delete id (tokenURIs s1)) s1)).
Proof.
  intros H. unfold _burn in H. run_inv.
  repeat match goal with x : unit |- _ => destruct x end.
  match goal with
  | H1 : ERC721._burn _ _ = Ok (_, ?s1) |- _ => exists s1
  end.
  by split_and!.
Qed.

Lemma isApprovedOrOwner_Ok spender id s b s' :
  ERC721._isApprovedOrOwner spender id s = Ok (b, s') → s' = s.
Proof.
  intros H.
  unfold ERC721._isApprovedOrOwner, ERC721.getApproved, ERC721.ownerOf in H.
  by run_inv.
Qed.

Lemma balanced_mint recipient id uri (hook : external) :
  (∀ s, balanced s (hook s).1) → preserves balanced (_mint recipient id uri hook).
Proof.
  intros Hh s u s' (s1 & s2 & Hm & Hk & _ & ->)%mint_Ok.
  apply ERC721_mint_Ok in Hm as (Hto & Hfree & Ho & Ht & _).
  specialize (Hh s1). rewrite Hk in Hh. unfold balanced, surplus in *.
  unfold claimed_count, claimed_ids in *. cbn in *. rewrite Ho, Ht in Hh.
  unfold claimed in Hfree. apply negb_false_iff, bool_decide_eq_true_1 in Hfree.
  rewrite size_claim in Hh by done. lia.
Qed.

Lemma balanced_burn id : preserves balanced (_burn id).
Proof.
  intros s u s' (s1 & Hb & Hpos & ->)%burn_Ok.
  apply ERC721_burn_Ok in Hb as (Hheld & Ho & Ht & _).
  unfold balanced, surplus, claimed_count, claimed_ids in *. cbn in *.
  rewrite Ho, Ht in *.
  unfold claimed in Hheld. apply negb_true_iff, bool_decide_eq_false_1 in Hheld.
  apply (size_release _ id) in Hheld. lia.
Qed.

Lemma balanced_transfer from to id : preserves balanced (ERC721._transfer from to id).
Proof.
  intros s u s' (Hto & Hheld & Ho & Ht & _)%ERC721_transfer_Ok.
  unfold balanced, surplus, claimed_count, claimed_ids. rewrite Ho, Ht.
  unfold claimed in Hheld. apply negb_true_iff, bool_decide_eq_false_1 in Hheld.
  by rewrite size_hand_over.
Qed.

Lemma run_snoc ts t s : run (ts ++ [t]) s = transact (run ts s) t.
Proof. unfold run. by rewrite fold_left_app. Qed.

Lemma balanced_run ts s : balanced s (run ts s).
Proof.
  apply (run_preserve balanced); try done.
  - apply balanced_mint.
  - apply balanced_burn.
  - apply balanced_transfer.
Qed.

Lemma mint_supply recipient id uri (hook : external) s s' :
  _mint recipient id uri hook s = Ok (tt, s') →
  ∃ s1 s2, ERC721._mint recipient id s = Ok (tt, s1) ∧ hook s1 = (s2, true) ∧
           totalSupply s1 = totalSupply s ∧
           totalSupply s' = totalSupply s2 + 1 ∧
           _owners s' = _owners s2.
Proof.
  intros (s1 & s2 & Hm & Hk & _ & ->)%mint_Ok. exists s1, s2.
  split_and!; try done.
  by apply ERC721_mint_Ok in Hm as (_ & _ & _ & -> & _).
Qed.

Lemma burn_supply sender id s s' :
  burn sender id s = Ok (tt, s') →
  claimed s id = true ∧ claimed s' id = false ∧
  totalSupply s' + 1 = totalSupply s ∧ revoked s' id = true ∧
  tokenURI id s' = Ok ("", s').
Proof.
  intros H. unfold burn, ERC721.burn in H.
  apply bind_Ok in H as (ok & s0 & Hc & H).
  apply isApprovedOrOwner_Ok in Hc as ->.
  apply bind_Ok in H as (? & ? & [_ ->]%require_Ok & H).
  apply burn_Ok in H as (s1 & Hb & Hpos & ->).
  apply ERC721_burn_Ok in Hb as (Hheld & Ho & Ht & _).
  unfold claimed, revoked, tokenURI, read in *. cbn. rewrite Ho, Ht in *.
  rewrite !lookup_delete_eq, lookup_insert_eq. cbn.
  split_and!; try done. lia.
Qed.

Lemma mintable_Ok weiPrice id uri signature s b s' :
  mintable weiPrice id uri signature s = Ok (b, s') →
  b = true ∧ s' = s ∧ vacant id s = Ok (true, s) ∧
  ECDSA_recover (_hash weiPrice id uri) signature = Ok (owner s).
Proof.
  intros H. unfold mintable in H.
  apply bind_Ok in H as (v & s1 & Hv & H).
  pose proof (vacant_Ok _ _ _ _ Hv) as (-> & -> & _).
  run_inv. subst. by split_and!.
Qed.

Lemma mintAuthorized_Ok sender recipient id uri (hook : external) s u s' :
  mintAuthorized sender recipient id uri hook s = Ok (u, s') →
  sender = owner s ∧ vacant id s = Ok (true, s) ∧
  _mint recipient id uri hook s = Ok (u, s').
Proof.
  intros H. unfold mintAuthorized in H.
  apply bind_Ok in H as (o & s1 & [-> ->]%read_Ok & H).
  apply bind_Ok in H as (? & s1 & [Ho%bool_decide_eq_true_1 ->]%require_Ok & H).
  apply bind_Ok in H as (v & s1 & Hv & H).
  pose proof (vacant_Ok _ _ _ _ Hv) as (-> & -> & _).
  apply bind_Ok in H as (? & s1 & [_ ->]%require_Ok & H). done.
Qed.

Lemma mint_Ok_checked sender value id uri signature (hook : external) s u s' :
  mint sender value id uri signature hook s = Ok (u, s') →
  mintable value id uri signature s = Ok (true, s) ∧
  _mint sender id uri hook s = Ok (u, s').
Proof.
  intros H. unfold mint in H.
  apply bind_Ok in H as (ok & s1 & Hm & H).
  pose proof (mintable_Ok _ _ _ _ _ _ _ Hm) as (-> & -> & _).
  apply bind_Ok in H as (? & s1 & [_ ->]%require_Ok & H). done.
Qed.

(** C3.  In every state reached from deployment by a sequence of
    transactions, [totalSupply] is the number of identifiers that currently
    have a holder, so it is at least 1 whenever some identifier is claimed and
    the decrement of a release never takes it below zero.  Every successful
    issuance adds exactly 1 to the counter (on top of what it is when the
    receiver hook returns, which is what it was before when the recipient
    makes no call of its own) and every successful burn takes exactly 1
    off. *)
Theorem totalSupply_counts_claimed (deployer : address) (funds : uint256)
    (ts : list (address * call)) :
  let s := run ts (constructor deployer funds) in
  totalSupply s = claimed_count s
  ∧ (∀ id, claimed s id = true → 1 ≤ totalSupply s)
  ∧ (∀ recipient id uri (hook : external) s',
       _mint recipient id uri hook s = Ok (tt, s') →
       ∃ s1 s2, ERC721._mint recipient id s = Ok (tt, s1) ∧
                hook s1 = (s2, true) ∧
                totalSupply s1 = totalSupply s ∧
                totalSupply s' = totalSupply s2 + 1)
  ∧ (∀ sender recipient id uri ok s',
       exec sender (MintAuthorized recipient id uri (answer ok)) s = Ok (tt, s') →
       totalSupply s' = totalSupply s + 1 ∧ claimed_count s' = claimed_count s + 1)
  ∧ (∀ sender value id uri signature ok s',
       exec sender (Mint value id uri signature (answer ok)) s = Ok (tt, s') →
       totalSupply s' = totalSupply s + 1 ∧ claimed_count s' = claimed_count s + 1)
  ∧ (∀ sender id s',
       exec sender (Burn id) s = Ok (tt, s') →
       totalSupply s' + 1 = totalSupply s ∧ claimed_count s' + 1 = claimed_count s).
Proof.
  intros s.
  assert (totalSupply s = claimed_count s) as Hinv.
  { pose proof (balanced_run ts (constructor deployer funds)) as H.
    fold s in H. unfold balanced, surplus in H. cbn in H.
    unfold claimed_count at 2, claimed_ids in H. cbn in H.
    rewrite map_filter_empty, map_size_empty in H. lia. }
  assert (∀ sender c s', exec sender c s = Ok (tt, s') →
            totalSupply s' = claimed_count s') as Hnext.
  { intros sender c s' H.
    pose proof (balanced_run (ts ++ [(sender, c)]) (constructor deployer funds)) as Hb.
    rewrite run_snoc in Hb. fold s in Hb. rewrite (transact_ok _ _ _ _ H) in Hb.
    unfold balanced, surplus in Hb. cbn in Hb.
    unfold claimed_count at 2, claimed_ids in Hb. cbn in Hb.
    rewrite map_filter_empty, map_size_empty in Hb. lia. }
  split_and!.
  - done.
  - intros id [o Ho]%claimed_lookup. rewrite Hinv. unfold claimed_count.
    assert (size (claimed_ids s) ≠ 0%nat) by by eapply map_size_ne_0_lookup_2.
    lia.
  - intros recipient id uri hook s' H.
    apply mint_supply in H as (s1 & s2 & ? & ? & ? & ? & _). eauto 10.
  - intros sender recipient id uri ok s' H.
    pose proof (Hnext _ _ _ H) as Hs'. cbn [exec perform] in H.
    apply mintAuthorized_Ok in H as (_ & _ & H).
    apply mint_supply in H as (s1 & s2 & _ & [= <- _] & ? & ? & _). lia.
  - intros sender value id uri signature ok s' H.
    pose proof (Hnext _ _ _ H) as Hs'. cbn [exec perform] in H.
    apply bind_Ok in H as (? & s0 & ->%write_Ok & H).
    apply mint_Ok_checked in H as (_ & H).
    apply mint_supply in H as (s1 & s2 & _ & [= <- _] & ? & ? & _).
    cbn in *. lia.
  - intros sender id s' H.
    pose proof (Hnext _ _ _ H) as Hs'. cbn [exec] in H.
    apply burn_supply in H as (_ & _ & ? & _). lia.
Qed.

(** ** Revocation is final *)

(** C4.  Once the revoked flag of an identifier is true - it was already, or
    the call is a successful [revokeId] or [burn] of that identifier - it is
    true after the call and after every further sequence of transactions,
    whatever the calls and whatever foreign code does inside them; [vacant]
    never succeeds on that identifier again. *)
Theorem revoked_is_permanent (s s' : state) (sender : address) (c : call)
    (id : uint256) (ts : list (address * call)) :
  exec sender c s = Ok (tt, s') →
  revoked s id = true ∨ c = RevokeId id ∨ c = Burn id →
  revoked s' id = true
  ∧ revoked (run ts s') id = true
  ∧ ∀ r, vacant id (run ts s') ≠ Ok r.
Proof.
  intros H Hwhy.
  assert (revoked s' id = true) as Hr.
  { destruct Hwhy as [Hbefore|[->| ->]].
    - by apply (evolves_exec _ _ _ _ _ H).
    - cbn [exec] in H. rewrite revokeId_eval in H.
      case_bool_decide; [|done]. destruct (vacant id s); [|done].
      injection H as <-. unfold revoked. cbn. by rewrite lookup_insert_eq.
    - cbn [exec] in H. by apply burn_supply in H as (_ & _ & _ & ? & _). }
  assert (revoked (run ts s') id = true) as Hr' by by apply (evolves_run ts s').
  split_and!; [done..|].
  intros [b s1] Hv. apply vacant_Ok in Hv as (_ & _ & _ & Hv & _). congruence.
Qed.

(** ** An identifier is issued at most once *)

Lemma vacant_Revert s id e : vacant id s = Revert e → availability_error e.
Proof.
  rewrite vacant_eval. unfold availability_error.
  repeat case_match; try done; intros [= <-]; auto.
Qed.

Lemma spent_unavailable s id :
  spent s id = true → ∃ e, vacant id s = Revert e ∧ availability_error e.
Proof.
  intros H. destruct (vacant id s) as [[b s']|e] eqn:E.
  - apply vacant_Ok in E as (_ & _ & Hc & Hr & _).
    unfold spent in H. by rewrite Hc, Hr in H.
  - exists e. split; [done|]. by eapply vacant_Revert.
Qed.

#[local] Instance stays_spent_preorder : PreOrder stays_spent.
Proof.
  split.
  - intros s id H. exact H.
  - intros s1 s2 s3 H1 H2 id H. exact (H2 id (H1 id H)).
Qed.

Lemma claimed_insert s s' id to id' :
  _owners s' = <[id := to]> (_owners s) → to ≠ 0 →
  claimed s' id' = if decide (id = id') then true else claimed s id'.
Proof.
  intros Ho Hto. unfold claimed. rewrite Ho. case_decide as Hid.
  - subst id'. rewrite lookup_insert_eq. cbn. by rewrite bool_decide_eq_false_2.
  - by rewrite lookup_insert_ne.
Qed.

Lemma stays_spent_mint recipient id uri (hook : external) :
  (∀ s, stays_spent s (hook s).1) →
  preserves stays_spent (_mint recipient id uri hook).
Proof.
  intros Hh s u s' (s1 & s2 & Hm & Hk & _ & ->)%mint_Ok id' Hs.
  apply ERC721_mint_Ok in Hm as (Hto & _ & Ho & _ & _ & Hr & _).
  specialize (Hh s1). rewrite Hk in Hh. apply (Hh id').
  unfold spent in *. rewrite (claimed_insert s s1 id recipient id') by done.
  unfold revoked. rewrite Hr. case_decide; [done|]. exact Hs.
Qed.

Lemma stays_spent_burn id : preserves stays_spent (_burn id).
Proof.
  intros s u s' (s1 & Hb & _ & ->)%burn_Ok id' Hs.
  apply ERC721_burn_Ok in Hb as (_ & Ho & _ & _ & Hr & _).
  unfold spent, claimed, revoked in *. cbn. rewrite Ho, Hr.
  destruct (decide (id = id')) as [->|Hne].
  - rewrite lookup_insert_eq. cbn. by rewrite orb_true_r.
  - rewrite lookup_delete_ne, lookup_insert_ne by done. exact Hs.
Qed.

Lemma stays_spent_transfer from to id :
  preserves stays_spent (ERC721._transfer from to id).
Proof.
  intros s u s' (Hto & Hheld & Ho & _ & _ & Hr & _)%ERC721_transfer_Ok id' Hs.
  unfold spent in *. rewrite (claimed_insert s s' id to id') by done.
  unfold revoked. rewrite Hr. case_decide; [done|]. exact Hs.
Qed.

Lemma stays_spent_revoke s id :
  stays_spent s (set_revokedIds (<[id := true]> (revokedIds s)) s).
Proof.
  intros id' Hs. unfold spent in *. apply orb_true_iff in Hs as [Hc|Hr].
  - unfold claimed in *. cbn. by rewrite Hc.
  - rewrite (revoked_insert _ _ _ Hr). by rewrite orb_true_r.
Qed.

Lemma stays_spent_calls :
  (∀ c sender, preserves stays_spent (exec sender c)) ∧
  (∀ k s, stays_spent s (perform k s).1).
Proof.
  apply (exec_perform_preserve stays_spent);
    try (intros; intros ? Hs; exact Hs).
  - apply stays_spent_revoke.
  - apply stays_spent_mint.
  - apply stays_spent_burn.
  - apply stays_spent_transfer.
Qed.

Lemma stays_spent_run ts s : stays_spent s (run ts s).
Proof.
  apply (run_preserve stays_spent); try (intros; intros ? Hs; exact Hs).
  - apply stays_spent_revoke.
  - apply stays_spent_mint.
  - apply stays_spent_burn.
  - apply stays_spent_transfer.
Qed.

(** Issuance spends its identifier, whatever the receiver hook does. *)
Lemma mint_spends recipient id uri k s u s' :
  _mint recipient id uri (perform k) s = Ok (u, s') → spent s' id = true.
Proof.
  intros (s1 & s2 & Hm & Hk & _ & ->)%mint_Ok.
  apply ERC721_mint_Ok in Hm as (Hto & _ & Ho & _).
  pose proof (proj2 stays_spent_calls k s1 id) as Hs. rewrite Hk in Hs.
  apply Hs. unfold spent.
  by rewrite (claimed_insert s s1 id recipient id), decide_True.
Qed.

(** ** Issuance with a signature *)

Lemma vacant_payable id value s :
  vacant id (set_balance (balance s + value) s) =
    match vacant id s with
    | Ok _ => Ok (true, set_balance (balance s + value) s)
    | Revert e => Revert e
    end.
Proof.
  rewrite !vacant_eval. unfold claimed, revoked. cbn.
  repeat (case_match; try done).
Qed.

Lemma mintable_eval weiPrice id uri signature s :
  mintable weiPrice id uri signature s =
    match vacant id s with
    | Revert e => Revert e
    | Ok _ =>
        match ECDSA_recover (_hash weiPrice id uri) signature with
        | Revert e => Revert e
        | Ok signer =>
            if bool_decide (owner s = signer) then Ok (true, s)
            else Revert (Error "signature invalid or signer unauthorized")
        end
    end.
Proof.
  destruct (vacant id s) as [[b s1]|e] eqn:Hv.
  - pose proof (vacant_Ok _ _ _ _ Hv) as (-> & -> & _).
    unfold mintable, bind. rewrite Hv. cbn.
    destruct (ECDSA_recover _ _); cbn; [|done].
    by case_bool_decide.
  - unfold mintable, bind. by rewrite Hv.
Qed.

Lemma mintable_payable weiPrice id uri signature value s :
  mintable weiPrice id uri signature (set_balance (balance s + value) s) =
    match mintable weiPrice id uri signature s with
    | Ok _ => Ok (true, set_balance (balance s + value) s)
    | Revert e => Revert e
    end.
Proof.
  rewrite !mintable_eval, vacant_payable.
  destruct (vacant id s); [|done].
  destruct (ECDSA_recover _ _); [|done]. cbn. by case_bool_decide.
Qed.

(** [mint] stops at the first check of [mintable] that fails. *)
Lemma exec_Mint_unmintable sender value id uri signature k s e :
  mintable value id uri signature s = Revert e →
  exec sender (Mint value id uri signature k) s = Revert e.
Proof.
  intros H. cbn [exec]. unfold payable, mint, bind at 1, write.
  apply bind_fail. by rewrite mintable_payable, H.
Qed.

(** C2.  In [mintable] and in [mint] the availability check comes first: when
    [vacant] reverts, both revert with its reason, whatever the signature is
    and whatever its recovery would do; the signature is recovered and
    compared only once [vacant] has passed; [mintable] writes nothing, a
    successful [mint] has passed both checks, and a [mint] that reverts leaves
    the storage as it was.  So a valid authorization signed by the principal,
    replayed when its identifier is claimed, is rejected with "tokenId already
    minted", not with the signature reason; and once an authorization has
    been redeemed, replaying it after any further transactions is rejected
    with one of the three reasons of [vacant]. *)
Theorem availability_before_signature (s : state) (sender : address)
    (value id : uint256) (uri : string) (signature : list Byte.byte) (k : callee) :
  (∀ e, vacant id s = Revert e →
     mintable value id uri signature s = Revert e
     ∧ exec sender (Mint value id uri signature k) s = Revert e)
  ∧ (vacant id s = Ok (true, s) →
     ∀ e, ECDSA_recover (_hash value id uri) signature = Revert e →
       mintable value id uri signature s = Revert e
       ∧ exec sender (Mint value id uri signature k) s = Revert e)
  ∧ (vacant id s = Ok (true, s) →
     ∀ signer, ECDSA_recover (_hash value id uri) signature = Ok signer →
       signer ≠ owner s →
       mintable value id uri signature s =
         Revert (Error "signature invalid or signer unauthorized")
       ∧ exec sender (Mint value id uri signature k) s =
           Revert (Error "signature invalid or signer unauthorized"))
  ∧ (∀ b s', mintable value id uri signature s = Ok (b, s') → b = true ∧ s' = s)
  ∧ (∀ s', exec sender (Mint value id uri signature k) s = Ok (tt, s') →
       vacant id s = Ok (true, s)
       ∧ ECDSA_recover (_hash value id uri) signature = Ok (owner s))
  ∧ (∀ e, exec sender (Mint value id uri signature k) s = Revert e →
       transact s (sender, Mint value id uri signature k) = s)
  ∧ (claimed s id = true →
     ECDSA_recover (_hash value id uri) signature = Ok (owner s) →
       mintable value id uri signature s =
         Revert (Error "tokenId already minted")
       ∧ exec sender (Mint value id uri signature k) s =
           Revert (Error "tokenId already minted")
       ∧ transact s (sender, Mint value id uri signature k) = s)
  ∧ (∀ s', exec sender (Mint value id uri signature k) s = Ok (tt, s') →
     ∀ ts replayer k', ∃ e,
       exec replayer (Mint value id uri signature k') (run ts s') = Revert e
       ∧ availability_error e).
Proof.
  split_and!.
  - intros e Hv.
    assert (mintable value id uri signature s = Revert e) as Hm
      by by rewrite mintable_eval, Hv.
    split; [done|]. by apply exec_Mint_unmintable.
  - intros Hv e He.
    assert (mintable value id uri signature s = Revert e) as Hm
      by by rewrite mintable_eval, Hv, He.
    split; [done|]. by apply exec_Mint_unmintable.
  - intros Hv signer He Hne.
    assert (mintable value id uri signature s =
              Revert (Error "signature invalid or signer unauthorized")) as Hm.
    { rewrite mintable_eval, Hv, He. by rewrite bool_decide_eq_false_2. }
    split; [done|]. by apply exec_Mint_unmintable.
  - intros b s' H. by apply mintable_Ok in H as (? & ? & _).
  - intros s' H. cbn [exec] in H.
    apply bind_Ok in H as (? & s0 & ->%write_Ok & H).
    apply mint_Ok_checked in H as (Hm & _).
    rewrite mintable_payable in Hm.
    destruct (mintable value id uri signature s) as [[b s1]|e] eqn:E; [|done].
    by apply mintable_Ok in E as (_ & -> & ? & ?).
  - intros e H. by eapply transact_revert.
  - intros Hc He.
    assert (mintable value id uri signature s =
              Revert (Error "tokenId already minted")) as Hm.
    { rewrite mintable_eval, vacant_eval, Hc. done. }
    pose proof (exec_Mint_unmintable sender _ _ _ _ k _ _ Hm) as Hx.
    split_and!; [done..|]. by eapply transact_revert.
  - intros s' H ts replayer k'. cbn [exec] in H.
    apply bind_Ok in H as (? & s0 & ->%write_Ok & H).
    apply mint_Ok_checked in H as (_ & H). apply mint_spends in H.
    apply (stays_spent_run ts s') in H.
    apply spent_unavailable in H as (e & Hv & He). exists e. split; [|done].
    apply exec_Mint_unmintable. by rewrite mintable_eval, Hv.
Qed.

(** ** Issuance without a metadata pointer *)

Lemma mint_empty_uri recipient id (hook : external) s :
  (∃ e, _mint recipient id "" hook s = Revert e)
  ∧ (∀ s1, ERC721._safeMint recipient id hook s = Ok (tt, s1) →
       _mint recipient id "" hook s = Revert (Error "tokenURI cannot be empty")).
Proof.
  split.
  - destruct (_mint recipient id "" hook s) as [[u s']|e] eqn:E; [|eauto].
    by apply mint_Ok in E as (? & ? & _ & _ & ? & _).
  - intros s1 H. unfold _mint. by rewrite (bind_step _ _ _ _ _ H).
Qed.

(** C8, as the code has it.  Issuance with an empty metadata pointer always
    reverts and the transaction leaves the whole storage as it was, so the
    identifier is not claimed, no pointer is stored and the supply is not
    incremented.  The reason is "tokenURI cannot be empty" when the call gets
    as far as storing the pointer: the caller is authorized (the principal,
    or the bearer of a signature of the principal), the identifier is vacant
    and the ownership component has accepted the recipient. *)
Theorem empty_uri_issues_nothing (s : state) (sender recipient : address)
    (value id : uint256) (signature : list Byte.byte) (k : callee) :
  (∃ e, exec sender (MintAuthorized recipient id "" k) s = Revert e)
  ∧ (∃ e, exec sender (Mint value id "" signature k) s = Revert e)
  ∧ transact s (sender, MintAuthorized recipient id "" k) = s
  ∧ transact s (sender, Mint value id "" signature k) = s
  ∧ (sender = owner s → vacant id s = Ok (true, s) →
     ∀ s1, ERC721._safeMint recipient id (perform k) s = Ok (tt, s1) →
       exec sender (MintAuthorized recipient id "" k) s =
         Revert (Error "tokenURI cannot be empty"))
  ∧ (mintable value id "" signature s = Ok (true, s) →
     ∀ s1, ERC721._safeMint sender id (perform k)
             (set_balance (balance s + value) s) = Ok (tt, s1) →
       exec sender (Mint value id "" signature k) s =
         Revert (Error "tokenURI cannot be empty")).
Proof.
  assert (∃ e, exec sender (MintAuthorized recipient id "" k) s = Revert e) as HA.
  { destruct (exec sender (MintAuthorized recipient id "" k) s)
      as [[u s']|e] eqn:E; [|eauto].
    cbn [exec] in E. apply mintAuthorized_Ok in E as (_ & _ & E).
    by apply mint_Ok in E as (? & ? & _ & _ & ? & _). }
  assert (∃ e, exec sender (Mint value id "" signature k) s = Revert e) as HM.
  { destruct (exec sender (Mint value id "" signature k) s)
      as [[u s']|e] eqn:E; [|eauto].
    cbn [exec] in E. apply bind_Ok in E as (? & s0 & ->%write_Ok & E).
    apply mint_Ok_checked in E as (_ & E).
    by apply mint_Ok in E as (? & ? & _ & _ & ? & _). }
  split_and!; [done|done|..].
  - destruct HA as [e HA]. by eapply transact_revert.
  - destruct HM as [e HM]. by eapply transact_revert.
  - intros Ho Hv s1 Hs. cbn [exec]. unfold mintAuthorized.
    rewrite (bind_step _ _ s (owner s) s) by done.
    rewrite (bind_step _ _ s tt s) by by (unfold require; rewrite bool_decide_eq_true_2).
    rewrite (bind_step _ _ _ _ _ Hv).
    rewrite (bind_step _ _ s tt s) by done.
    by eapply mint_empty_uri.
  - intros Hm s1 Hs. cbn [exec]. unfold payable.
    rewrite (bind_step _ _ s tt (set_balance (balance s + value) s)) by done.
    unfold mint.
    assert (mintable value id "" signature (set_balance (balance s + value) s) =
              Ok (true, set_balance (balance s + value) s)) as Hm'
      by by rewrite mintable_payable, Hm.
    rewrite (bind_step _ _ _ _ _ Hm').
    rewrite (bind_step _ _ _ tt (set_balance (balance s + value) s)) by done.
    by eapply mint_empty_uri.
Qed.

(** ** Withdrawal *)

Lemma withdraw_eval sender (recipient : external) s :
  withdraw sender recipient s =
    if bool_decide (sender = owner s)
    then match recipient (set_balance 0 s) with
         | (s1, true) => Ok (tt, set_events (events s1 ++ [Withdrawal (balance s)]) s1)
         | (_, false) => Revert (Error "transfer failed")
         end
    else Revert (Error "unauthorized to withdraw").
Proof.
  unfold withdraw, bind, read, require, call_value, emit, write.
  destruct (bool_decide (sender = owner s)); [|done].
  rewrite bool_decide_eq_true_2 by lia. rewrite N.sub_diag.
  by destruct (recipient (set_balance 0 s)) as [s1 []].
Qed.

(** C9, as the code has it.  [withdraw] called by anyone but the principal
    reverts with "unauthorized to withdraw"; called by the principal it sends
    the whole balance to the principal, and if that transfer fails it reverts
    with "transfer failed"; in both cases the balance, like the rest of the
    storage, is untouched.  When the transfer succeeds the event
    [Withdrawal] with the amount sent is appended to what the recipient's
    code left; the balance it leaves is exactly 0 when that code makes no
    call back into the contract, and is otherwise the balance that code's
    calls left, starting from 0, when it returned. *)
Theorem withdraw_all (s : state) (sender : address) (k : callee) :
  (sender ≠ owner s →
     exec sender (Withdraw k) s = Revert (Error "unauthorized to withdraw")
     ∧ transact s (sender, Withdraw k) = s)
  ∧ (sender = owner s → (perform k (set_balance 0 s)).2 = false →
     exec sender (Withdraw k) s = Revert (Error "transfer failed")
     ∧ transact s (sender, Withdraw k) = s)
  ∧ (sender = owner s → (perform k (set_balance 0 s)).2 = true →
     let s1 := (perform k (set_balance 0 s)).1 in
     exec sender (Withdraw k) s =
       Ok (tt, set_events (events s1 ++ [Withdrawal (balance s)]) s1)
     ∧ balance (transact s (sender, Withdraw k)) = balance s1)
  ∧ (sender = owner s →
     let s' := transact s (sender, Withdraw (answer true)) in
     balance s' = 0
     ∧ events s' = events s ++ [Withdrawal (balance s)]
     ∧ s' = set_events (events s ++ [Withdrawal (balance s)]) (set_balance 0 s)).
Proof.
  split_and!.
  - intros Ho.
    assert (exec sender (Withdraw k) s = Revert (Error "unauthorized to withdraw")) as H.
    { cbn [exec]. rewrite withdraw_eval. by rewrite bool_decide_eq_false_2. }
    split; [done|]. by eapply transact_revert.
  - intros Ho Hk.
    assert (exec sender (Withdraw k) s = Revert (Error "transfer failed")) as H.
    { cbn [exec]. rewrite withdraw_eval. rewrite bool_decide_eq_true_2 by done.
      destruct (perform k (set_balance 0 s)) as [s1 ok]. cbn in Hk. by subst ok. }
    split; [done|]. by eapply transact_revert.
  - intros Ho Hk s1.
    assert (exec sender (Withdraw k) s =
              Ok (tt, set_events (events s1 ++ [Withdrawal (balance s)]) s1)) as H.
    { cbn [exec]. rewrite withdraw_eval. rewrite bool_decide_eq_true_2 by done.
      subst s1. destruct (perform k (set_balance 0 s)) as [s1 ok].
      cbn in Hk. by subst ok. }
    split; [done|]. by rewrite (transact_ok _ _ _ _ H).
  - intros Ho s'.
    assert (exec sender (Withdraw (answer true)) s =
              Ok (tt, set_events (events s ++ [Withdrawal (balance s)])
                        (set_balance 0 s))) as H.
    { cbn [exec]. rewrite withdraw_eval. by rewrite bool_decide_eq_true_2. }
    subst s'. by rewrite (transact_ok _ _ _ _ H).
Qed.

(** ** The metadata pointer of an unclaimed identifier *)

(** The lookup never reverts, claimed or not, and writes nothing. *)
Lemma tokenURI_total s id : tokenURI id s = Ok (default "" (tokenURIs s !! id), s).
Proof. reflexivity. Qed.

#[local] Instance keeps_pointers_preorder : PreOrder keeps_pointers.
Proof.
  split.
  - intros s H. exact H.
  - intros s1 s2 s3 H1 H2 H. exact (H2 (H1 H)).
Qed.

Lemma pointers_mint recipient id uri ok :
  preserves keeps_pointers (_mint recipient id uri (λ s, (s, ok))).
Proof.
  intros s u s' (s1 & s2 & Hm & [= <- _] & _ & ->)%mint_Ok Hinv id' Hfree.
  apply ERC721_mint_Ok in Hm as (Hto & _ & Ho & _ & Hu & _).
  cbn in *. rewrite Hu.
  rewrite (claimed_insert s _ id recipient id') in Hfree by done.
  case_decide; [done|]. rewrite lookup_insert_ne by done. by apply Hinv.
Qed.

Lemma pointers_burn id : preserves keeps_pointers (_burn id).
Proof.
  intros s u s' (s1 & Hb & _ & ->)%burn_Ok Hinv id' Hfree.
  apply ERC721_burn_Ok in Hb as (_ & Ho & _ & Hu & _).
  unfold claimed in Hfree. cbn in *. rewrite Ho in Hfree. rewrite Hu.
  destruct (decide (id = id')) as [->|Hne].
  - by rewrite lookup_delete_eq.
  - rewrite lookup_delete_ne in Hfree by done.
    rewrite lookup_delete_ne by done. by apply Hinv.
Qed.

Lemma pointers_transfer from to id :
  preserves keeps_pointers (ERC721._transfer from to id).
Proof.
  intros s u s' (Hto & Hheld & Ho & _ & Hu & _)%ERC721_transfer_Ok Hinv id' Hfree.
  rewrite Hu. rewrite (claimed_insert s _ id to id') in Hfree by done.
  case_decide; [done|]. by apply Hinv.
Qed.

(** A write that touches neither the holders nor the pointers. *)
Ltac same_pointers :=
  intros; first [done | let H := fresh in intros H; exact H].

Lemma pointers_quiet sender c :
  quiet c = true → preserves keeps_pointers (exec sender c).
Proof.
  intros Hq.
  destruct c as [value|k|recipient id uri k|value id uri signature k| | | | | | |from to id k];
    try (destruct k; [|done]); cbn [exec perform].
  - apply (preserves_receive keeps_pointers); same_pointers.
  - apply (preserves_withdraw keeps_pointers); same_pointers.
  - unfold mintAuthorized. preserve;
      first [apply (preserves_vacant keeps_pointers) | apply pointers_mint].
  - unfold payable, mint. preserve;
      first [apply (preserves_write keeps_pointers); same_pointers
            | apply (preserves_mintable keeps_pointers) | apply pointers_mint].
  - apply (preserves_revokeId keeps_pointers); same_pointers.
  - apply (preserves_setIdFloor keeps_pointers); same_pointers.
  - unfold burn, ERC721.burn. preserve;
      first [apply (preserves_isApprovedOrOwner keeps_pointers) | apply pointers_burn].
  - apply (preserves_approve keeps_pointers); same_pointers.
  - apply (preserves_setApprovalForAll keeps_pointers); same_pointers.
  - apply (preserves_transferFrom keeps_pointers), pointers_transfer.
  - apply (preserves_safeTransferFrom keeps_pointers);
      [apply pointers_transfer|same_pointers].
Qed.

(** As long as no receiver hook or withdrawal recipient calls back, the
    lookup answers the empty string for every unclaimed identifier. *)
Lemma tokenURI_unclaimed_quiet deployer funds ts id :
  Forall (λ t, quiet t.2 = true) ts →
  let s := run ts (constructor deployer funds) in
  claimed s id = false → tokenURI id s = Ok ("", s).
Proof.
  intros Hq s Hfree.
  assert (pointers_claimed s) as Hinv; [|unfold tokenURI, read; by rewrite Hinv].
  subst s. clear Hfree.
  induction ts as [|t ts IH] using rev_ind.
  - intros id' _. done.
  - apply Forall_app in Hq as [Hq Ht]. rewrite Forall_singleton in Ht.
    rewrite run_snoc. unfold transact.
    destruct (exec t.1 t.2 _) as [[u s']|e] eqn:E; [|by apply IH].
    eapply pointers_quiet; eauto.
Qed.

(** ** Relations kept by the guarded writes *)

(** [revokeId], [mintAuthorized] and [mint] write only once [vacant] has
    passed.  A relation that needs that guard is kept by every call all the
    same: it is enough that revoking and issuing keep it from a storage in
    which the identifier is vacant. *)
Section Guarded.

Context (R : relation state) `{!PreOrder R}.

Hypothesis guarded_balances : ∀ s v, R s (set_balances v s).
Hypothesis guarded_tokenApprovals : ∀ s v, R s (set_tokenApprovals v s).
Hypothesis guarded_operatorApprovals : ∀ s v, R s (set_operatorApprovals v s).
Hypothesis guarded_events : ∀ s v, R s (set_events v s).
Hypothesis guarded_balance : ∀ s v, R s (set_balance v s).
Hypothesis guarded_revoke :
  ∀ s id, vacant id s = Ok (true, s) →
    R s (set_revokedIds (<[id := true]> (revokedIds s)) s).
Hypothesis guarded_raise :
  ∀ s floor, idFloor s < floor → R s (set_idFloor floor s).
Hypothesis guarded_issue :
  ∀ recipient id uri (hook : external),
    (∀ s, R s (hook s).1) →
    ∀ s u s', vacant id s = Ok (true, s) →
      _mint recipient id uri hook s = Ok (u, s') → R s s'.
Hypothesis guarded_burn : ∀ id, preserves R (_burn id).
Hypothesis guarded_transfer :
  ∀ from to id, preserves R (ERC721._transfer from to id).

Lemma guarded_revokeId sender id : preserves R (revokeId sender id).
Proof.
  intros s u s' H. rewrite revokeId_eval in H. case_bool_decide; [|done].
  destruct (vacant id s) as [[b s1]|e] eqn:E; [|done].
  pose proof (vacant_Ok _ _ _ _ E) as (-> & -> & _).
  simplify_eq. etrans; [by apply guarded_revoke|]. apply guarded_events.
Qed.

Lemma guarded_mintAuthorized sender recipient id uri (hook : external) :
  (∀ s, R s (hook s).1) →
  preserves R (mintAuthorized sender recipient id uri hook).
Proof.
  intros Hh s u s' (_ & Hv & Hm)%mintAuthorized_Ok.
  by eapply guarded_issue.
Qed.

Lemma guarded_mint sender value id uri signature (hook : external) :
  (∀ s, R s (hook s).1) →
  preserves R (payable value ;; mint sender value id uri signature hook).
Proof.
  intros Hh s u s' H. apply bind_Ok in H as (? & s0 & ->%write_Ok & H).
  apply mint_Ok_checked in H as (Hm & H).
  apply mintable_Ok in Hm as (_ & _ & Hv & _).
  transitivity (set_balance (balance s + value) s); [apply guarded_balance|].
  by eapply guarded_issue.
Qed.

Lemma guarded_calls :
  (∀ c sender, preserves R (exec sender c)) ∧
  (∀ k s, R s (perform k s).1).
Proof.
  apply call_mutind; cbn [exec perform]; intros.
  - by apply (preserves_receive R).
  - by apply (preserves_withdraw R).
  - by apply guarded_mintAuthorized.
  - by apply guarded_mint.
  - apply guarded_revokeId.
  - by apply (preserves_setIdFloor R).
  - by apply (preserves_burn R).
  - by apply (preserves_approve R).
  - by apply (preserves_setApprovalForAll R).
  - by apply (preserves_transferFrom R).
  - by apply (preserves_safeTransferFrom R).
  - done.
  - destruct (exec sender c s) as [[[] s1]|e] eqn:E; [|done].
    transitivity s1; [by eapply H|done].
Qed.

Lemma guarded_run ts s : R s (run ts s).
Proof.
  revert s. induction ts as [|t ts IH]; intros s; cbn; [done|].
  transitivity (transact s t); [|apply IH].
  unfold transact. destruct (exec t.1 t.2 s) as [[[] s']|e] eqn:E; [|done].
  by eapply guarded_calls.
Qed.

End Guarded.

(** ** Claimed and revoked exclude each other *)

Definition exclusive (s : state) : Prop :=
  ∀ id, claimed s id = true → revoked s id = false.

Definition keeps_exclusive (s s' : state) : Prop := exclusive s → exclusive s'.

#[local] Instance keeps_exclusive_preorder : PreOrder keeps_exclusive.
Proof.
  split.
  - intros s H. exact H.
  - intros s1 s2 s3 H1 H2 H. exact (H2 (H1 H)).
Qed.

Lemma revoked_insert_ne s id id' :
  id ≠ id' →
  revoked (set_revokedIds (<[id := true]> (revokedIds s)) s) id' = revoked s id'.
Proof. intros Hne. unfold revoked. cbn. by rewrite lookup_insert_ne. Qed.

Lemma exclusive_revoke s id :
  vacant id s = Ok (true, s) →
  keeps_exclusive s (set_revokedIds (<[id := true]> (revokedIds s)) s).
Proof.
  intros (_ & _ & Hc & _)%vacant_Ok Hx id' Hc'.
  destruct (decide (id = id')) as [->|Hne].
  - unfold claimed in *. cbn in Hc'. congruence.
  - rewrite revoked_insert_ne by done. by apply Hx.
Qed.

Lemma exclusive_issue recipient id uri (hook : external) :
  (∀ s, keeps_exclusive s (hook s).1) →
  ∀ s u s', vacant id s = Ok (true, s) →
    _mint recipient id uri hook s = Ok (u, s') → keeps_exclusive s s'.
Proof.
  intros Hh s u s' (_ & _ & _ & Hr & _)%vacant_Ok
    (s1 & s2 & Hm & Hk & _ & ->)%mint_Ok Hx.
  apply ERC721_mint_Ok in Hm as (Hto & _ & Ho & _ & _ & Hrev & _).
  specialize (Hh s1). rewrite Hk in Hh. apply Hh.
  intros id' Hc'. rewrite (claimed_insert s s1 id recipient id') in Hc' by done.
  unfold revoked. rewrite Hrev. case_decide; [by subst id'|]. by apply Hx.
Qed.

Lemma exclusive_burn id : preserves keeps_exclusive (_burn id).
Proof.
  intros s u s' (s1 & Hb & _ & ->)%burn_Ok Hx id' Hc'.
  apply ERC721_burn_Ok in Hb as (_ & Ho & _ & _ & Hrev & _).
  unfold claimed in Hc'. cbn in Hc'. rewrite Ho in Hc'.
  destruct (decide (id = id')) as [->|Hne].
  - rewrite lookup_delete_eq in Hc'. cbn in Hc'. by rewrite bool_decide_eq_true_2 in Hc'.
  - rewrite lookup_delete_ne in Hc' by done.
    unfold revoked. cbn. rewrite Hrev, lookup_insert_ne by done. by apply Hx.
Qed.

Lemma exclusive_transfer from to id :
  preserves keeps_exclusive (ERC721._transfer from to id).
Proof.
  intros s u s' (Hto & Hheld & Ho & _ & _ & Hrev & _)%ERC721_transfer_Ok Hx id' Hc'.
  rewrite (claimed_insert s s' id to id') in Hc' by done.
  unfold revoked. rewrite Hrev. case_decide; [subst id'|]; by apply Hx.
Qed.

Lemma exclusive_run ts s : keeps_exclusive s (run ts s).
Proof.
  apply (guarded_run keeps_exclusive); try (intros ? ? Hx; exact Hx).
  - apply exclusive_revoke.
  - intros s0 floor _ Hx. exact Hx.
  - apply exclusive_issue.
  - apply exclusive_burn.
  - apply exclusive_transfer.
Qed.

(** X1.  In every state reached from deployment no identifier is claimed and
    revoked at once: [revokeId] takes only vacant identifiers, issuance only
    unrevoked ones, and [_burn] sets the flag as it removes the holder. *)
Theorem claimed_excludes_revoked (deployer : address) (funds : uint256)
    (ts : list (address * call)) (id : uint256) :
  let s := run ts (constructor deployer funds) in
  claimed s id && revoked s id = false.
Proof.
  intros s.
  assert (exclusive s) as Hx.
  { apply exclusive_run. intros id' Hc. done. }
  destruct (claimed s id) eqn:Hc; [|done]. cbn. by apply Hx.
Qed.

(** ** Retired identifiers *)

(** An identifier is retired when it has no holder and can get none: it is
    revoked, or it lies below the floor. *)
Definition retired (s : state) (id : uint256) : Prop :=
  claimed s id = false ∧ (revoked s id = true ∨ id < idFloor s).

(** Retired before, retired after, with the pointer it had. *)
Definition stays_retired (id : uint256) (s s' : state) : Prop :=
  retired s id → retired s' id ∧ tokenURIs s' !! id = tokenURIs s !! id.

#[local] Instance stays_retired_preorder id : PreOrder (stays_retired id).
Proof.
  split.
  - intros s H. done.
  - intros s1 s2 s3 H1 H2 H. destruct (H1 H) as [H' E1].
    destruct (H2 H') as [H'' E2]. split; [done|congruence].
Qed.

Lemma retired_not_vacant s id b :
  retired s id → vacant id s ≠ Ok (b, s).
Proof.
  intros [_ Hwhy] (_ & _ & _ & Hr & Hf)%vacant_Ok.
  destruct Hwhy; [congruence|lia].
Qed.

(** A write that leaves holders, flags, floor and pointers alone. *)
Ltac same_lifecycle :=
  intros; let H := fresh in intros H; split; [exact H|reflexivity].

Lemma retired_revoke id s id0 :
  stays_retired id s (set_revokedIds (<[id0 := true]> (revokedIds s)) s).
Proof.
  intros [Hc Hwhy]. split; [|done]. split; [done|].
  destruct Hwhy as [Hr|Hf]; [left|by right]. by apply revoked_insert.
Qed.

Lemma retired_raise id s floor :
  idFloor s < floor → stays_retired id s (set_idFloor floor s).
Proof.
  intros Hlt [Hc Hwhy]. split; [|done]. split; [done|].
  destruct Hwhy as [Hr|Hf]; [by left|right]. cbn. lia.
Qed.

Lemma retired_issue id recipient id0 uri (hook : external) :
  (∀ s, stays_retired id s (hook s).1) →
  ∀ s u s', vacant id0 s = Ok (true, s) →
    _mint recipient id0 uri hook s = Ok (u, s') → stays_retired id s s'.
Proof.
  intros Hh s u s' Hv (s1 & s2 & Hm & Hk & _ & ->)%mint_Ok Hret.
  assert (id0 ≠ id) as Hne.
  { intros ->. by eapply retired_not_vacant. }
  apply ERC721_mint_Ok in Hm as (Hto & _ & Ho & _ & Hu & Hrev & Hfl & _).
  specialize (Hh s1). rewrite Hk in Hh.
  destruct Hh as [[Hc2 Hwhy2] Hu2].
  { destruct Hret as [Hc Hwhy]. split.
    - by rewrite (claimed_insert s s1 id0 recipient id), decide_False.
    - unfold revoked. by rewrite Hrev, Hfl. }
  cbn in Hc2, Hwhy2, Hu2.
  split; [by split|]. cbn. rewrite lookup_insert_ne by done. congruence.
Qed.

Lemma retired_burn id id0 : preserves (stays_retired id) (_burn id0).
Proof.
  intros s u s' (s1 & Hb & _ & ->)%burn_Ok [Hc Hwhy].
  apply ERC721_burn_Ok in Hb as (Hheld & Ho & _ & Hu & Hrev & Hfl & _).
  assert (id0 ≠ id) as Hne by (intros ->; congruence).
  unfold retired, claimed, revoked in *. cbn.
  rewrite Ho, Hu, Hrev, Hfl, !lookup_delete_ne, lookup_insert_ne by done.
  done.
Qed.

Lemma retired_transfer id from to id0 :
  preserves (stays_retired id) (ERC721._transfer from to id0).
Proof.
  intros s u s' (Hto & Hheld & Ho & _ & Hu & Hrev & Hfl & _)%ERC721_transfer_Ok
    [Hc Hwhy].
  assert (id0 ≠ id) as Hne by (intros ->; congruence).
  split; [|by rewrite Hu]. split.
  - by rewrite (claimed_insert s s' id0 to id), decide_False.
  - unfold revoked. by rewrite Hrev, Hfl.
Qed.

Lemma retired_run id ts s : stays_retired id s (run ts s).
Proof.
  apply (guarded_run (stays_retired id)); try same_lifecycle.
  - intros s0 id0 _. apply retired_revoke.
  - intros s0 floor. apply retired_raise.
  - apply retired_issue.
  - apply retired_burn.
  - apply retired_transfer.
Qed.

(** X2.  An identifier without a holder that is revoked or below the floor
    never gets a holder again: after any sequence of transactions it is still
    unclaimed, [vacant] still rejects it, and its metadata pointer is the one
    it had. *)
Theorem retired_forever (s : state) (id : uint256) (ts : list (address * call)) :
  claimed s id = false →
  revoked s id = true ∨ id < idFloor s →
  claimed (run ts s) id = false
  ∧ (∃ e, vacant id (run ts s) = Revert e ∧ availability_error e)
  ∧ tokenURI id (run ts s) = Ok (default "" (tokenURIs s !! id), run ts s).
Proof.
  intros Hc Hwhy.
  destruct (retired_run id ts s) as [[Hc' Hwhy'] Hu]; [done|].
  split_and!; [done| |].
  - destruct (vacant id (run ts s)) as [[b s1]|e] eqn:E.
    + pose proof (vacant_Ok _ _ _ _ E) as (_ & -> & _).
      by eapply retired_not_vacant in E.
    + exists e. split; [done|]. by eapply vacant_Revert.
  - unfold tokenURI, read. by rewrite Hu.
Qed.

(** X3.  After a burn that is a call of its own, so that the transactions
    that follow start from the state it leaves, the identifier is never
    claimed again and [tokenURI] answers the empty string for it from then
    on, whatever is called afterwards.  A burn made from inside the receiver
    hook of an issuance is not followed by such a run but by the rest of
    that issuance, and is not covered. *)
Theorem burnt_pointer_stays_empty (s s' : state) (sender : address)
    (id : uint256) (ts : list (address * call)) :
  exec sender (Burn id) s = Ok (tt, s') →
  claimed (run ts s') id = false
  ∧ revoked (run ts s') id = true
  ∧ tokenURI id (run ts s') = Ok ("", run ts s').
Proof.
  intros H. cbn [exec] in H.
  apply burn_supply in H as (_ & Hc & _ & Hr & Hu).
  destruct (retired_run id ts s') as [[Hc' _] Hu']; [split; auto|].
  split_and!; [done|by apply (evolves_run ts s')|].
  unfold tokenURI, read in *. rewrite Hu'. by injection Hu as ->.
Qed.

(** X4.  Raising the floor closes the range below it for good: an identifier
    below the new floor that has no holder when the floor is raised never
    gets one, whatever is called afterwards. *)
Theorem raised_floor_closes_range (s s' : state) (sender : address)
    (floor id : uint256) (ts : list (address * call)) :
  setIdFloor sender floor s = Ok (tt, s') →
  id < floor → claimed s id = false →
  claimed (run ts s') id = false
  ∧ ∃ e, vacant id (run ts s') = Revert e ∧ availability_error e.
Proof.
  intros H Hlt Hc. rewrite setIdFloor_eval in H.
  repeat case_bool_decide; try done. simplify_eq.
  set (s' := set_events (events s ++ [IdFloorSet floor]) (set_idFloor floor s)).
  destruct (retired_run id ts s') as [[Hc' Hwhy'] _].
  { split; [done|]. right. done. }
  split; [done|].
  destruct (vacant id (run ts s')) as [[b s1]|e] eqn:E.
  - pose proof (vacant_Ok _ _ _ _ E) as (_ & -> & _).
    eapply retired_not_vacant in E; [done|]. by split.
  - exists e. split; [done|]. by eapply vacant_Revert.
Qed.

(** ** Direct issuance and revocation by the principal *)

(** The identifier a call sets out to issue, if it is an issuance. *)
Definition issues (c : call) : option uint256 :=
  match c with
  | MintAuthorized _ id _ _ => Some id
  | Mint _ id _ _ _ => Some id
  | _ => None
  end.

Lemma mintAuthorized_unauthorized sender recipient id uri (hook : external) s :
  sender ≠ owner s →
  mintAuthorized sender recipient id uri hook s = Revert (Error "unauthorized to mint").
Proof.
  intros Hne. unfold mintAuthorized, bind, read, require.
  by rewrite bool_decide_eq_false_2.
Qed.

Lemma mintAuthorized_unavailable sender recipient id uri (hook : external) s e :
  sender = owner s → vacant id s = Revert e →
  mintAuthorized sender recipient id uri hook s = Revert e.
Proof.
  intros Ho Hv. unfold mintAuthorized, bind, read, require.
  rewrite bool_decide_eq_true_2 by done. by rewrite Hv.
Qed.

Lemma issuance_Ok sender c id s u s' :
  issues c = Some id → exec sender c s = Ok (u, s') →
  spent s id = false ∧ spent s' id = true.
Proof.
  intros Hi H.
  destruct c; try discriminate; cbn in Hi; simplify_eq; cbn [exec] in H.
  - apply mintAuthorized_Ok in H as (_ & Hv & H).
    apply vacant_Ok in Hv as (_ & _ & Hc & Hr & _).
    split; [unfold spent; by rewrite Hc, Hr|]. by eapply mint_spends.
  - apply bind_Ok in H as (? & s0 & ->%write_Ok & H).
    apply mint_Ok_checked in H as (Hm & H).
    apply mintable_Ok in Hm as (_ & _ & Hv & _).
    apply vacant_Ok in Hv as (_ & _ & Hc & Hr & _).
    split; [exact (eq_trans eq_refl (f_equal2 orb Hc Hr))|]. by eapply mint_spends.
Qed.

(** X5.  An identifier is issued at most once.  Once [mintAuthorized] or
    [mint] has succeeded for an identifier, every later call of either for
    the same identifier reverts, with any arguments, from any caller and
    after any transactions in between, transfers and a burn included. *)
Theorem issued_at_most_once (s s' : state) (sender : address) (c : call)
    (id : uint256) (ts : list (address * call)) (sender' : address) (c' : call) :
  issues c = Some id →
  exec sender c s = Ok (tt, s') →
  issues c' = Some id →
  ∃ e, exec sender' c' (run ts s') = Revert e.
Proof.
  intros Hi H Hi'.
  apply (issuance_Ok _ _ _ _ _ _ Hi) in H as [_ Hs].
  apply (stays_spent_run ts s') in Hs.
  destruct (exec sender' c' (run ts s')) as [[u s2]|e] eqn:E; [|eauto].
  apply (issuance_Ok _ _ _ _ _ _ Hi') in E as [Hn _]. congruence.
Qed.

(** X6.  The account that deployed the contract stays its owner, and in
    every state reached from deployment the four privileged functions turn
    away any other caller with their own reason, before looking at their
    arguments or at the identifier. *)
Theorem only_the_deployer_is_privileged (deployer : address) (funds : uint256)
    (ts : list (address * call)) (sender : address) :
  sender ≠ deployer →
  let s := run ts (constructor deployer funds) in
  owner s = deployer
  ∧ (∀ recipient id uri k,
       exec sender (MintAuthorized recipient id uri k) s =
         Revert (Error "unauthorized to mint"))
  ∧ (∀ id, exec sender (RevokeId id) s = Revert (Error "unauthorized to revoke id"))
  ∧ (∀ floor, exec sender (SetIdFloor floor) s =
       Revert (Error "unauthorized to set idFloor"))
  ∧ (∀ k, exec sender (Withdraw k) s = Revert (Error "unauthorized to withdraw")).
Proof.
  intros Hne s.
  assert (owner s = deployer) as Ho.
  { by destruct (evolves_run ts (constructor deployer funds)) as [? _]. }
  assert (sender ≠ owner s) as Hne' by congruence.
  split_and!; [done|..]; intros; cbn [exec].
  - by apply mintAuthorized_unauthorized.
  - rewrite revokeId_eval. by rewrite bool_decide_eq_false_2.
  - rewrite setIdFloor_eval. by rewrite bool_decide_eq_false_2.
  - rewrite withdraw_eval. by rewrite bool_decide_eq_false_2.
Qed.

(** X7.  [revokeId] succeeds exactly when the caller is the principal and
    the identifier is vacant.  So the principal cannot revoke an identifier
    that has a holder ("tokenId already minted"), nor one that is already
    revoked or burnt, nor one below the floor.  A successful call sets the
    flag of the identifier, adds [IdRevoked] with the identifier to the log
    and changes nothing else: no holder, pointer, supply, floor or balance,
    and no other identifier's flag. *)
Theorem revokeId_only_vacant (s : state) (sender : address) (id : uint256) :
  ((∃ s', revokeId sender id s = Ok (tt, s')) ↔
     sender = owner s ∧ claimed s id = false ∧ revoked s id = false
     ∧ idFloor s ≤ id)
  ∧ (sender = owner s → claimed s id = true →
       revokeId sender id s = Revert (Error "tokenId already minted"))
  ∧ (sender = owner s → claimed s id = false → idFloor s ≤ id →
       revoked s id = true →
       revokeId sender id s = Revert (Error "tokenId revoked or burnt"))
  ∧ (sender = owner s → claimed s id = false → id < idFloor s →
       revokeId sender id s = Revert (Error "tokenId below floor"))
  ∧ (∀ s', revokeId sender id s = Ok (tt, s') →
       s' = set_events (events s ++ [IdRevoked id])
              (set_revokedIds (<[id := true]> (revokedIds s)) s)
       ∧ revoked s' id = true
       ∧ events s' = events s ++ [IdRevoked id]
       ∧ _owners s' = _owners s ∧ tokenURIs s' = tokenURIs s
       ∧ totalSupply s' = totalSupply s ∧ idFloor s' = idFloor s
       ∧ balance s' = balance s ∧ owner s' = owner s
       ∧ _balances s' = _balances s
       ∧ _tokenApprovals s' = _tokenApprovals s
       ∧ _operatorApprovals s' = _operatorApprovals s
       ∧ ∀ id', id' ≠ id → revoked s' id' = revoked s id').
Proof.
  rewrite revokeId_eval, vacant_eval. split_and!.
  - split.
    + intros [s' H]. repeat case_match; try done.
      repeat case_bool_decide; try done.
    + intros (Ho & Hc & Hr & Hf). rewrite Hc, Hr.
      rewrite !bool_decide_eq_true_2 by done. eauto.
  - intros Ho Hc. rewrite Hc. by rewrite bool_decide_eq_true_2.
  - intros Ho Hc Hf Hr. rewrite Hc, Hr. by rewrite !bool_decide_eq_true_2.
  - intros Ho Hc Hf. rewrite Hc. rewrite bool_decide_eq_true_2 by done.
    by rewrite bool_decide_eq_false_2 by lia.
  - intros s' H. repeat case_match; try done. simplify_eq.
    split_and!; try done.
    + unfold revoked. cbn. by rewrite lookup_insert_eq.
    + intros id' Hne. by apply revoked_insert_ne.
Qed.

(** ** What a successful issuance needs and leaves *)

Lemma ERC721_mint_eval to id s :
  ERC721._mint to id s =
    if bool_decide (to = 0) then Revert (Error "ERC721: mint to the zero address")
    else if claimed s id then Revert (Error "ERC721: token already minted")
    else if bool_decide (default 0 (_balances s !! to) + 1 < 2 ^ 256)
    then Ok (tt, set_events (events s ++ [Transfer 0 to id])
                   (set_owners (<[id := to]> (_owners s))
                      (set_balances
                         (<[to := default 0 (_balances s !! to) + 1]> (_balances s)) s)))
    else Revert (Panic 17).
Proof.
  unfold ERC721._mint, ERC721._exists, claimed, checked_add, bind, read, require,
    write, emit, ret, lift.
  cbn. destruct (bool_decide (to = 0)); cbn; [done|].
  destruct (bool_decide (default 0 (_owners s !! id) = 0)); cbn; [|done].
  by destruct (bool_decide (default 0 (_balances s !! to) + 1 < 2 ^ 256)).
Qed.

(** The storage a successful issuance of [id] to [to] with pointer [uri]
    leaves when the receiver hook makes no call of its own. *)
Definition issued (to : address) (id : uint256) (uri : string) (s : state) : state :=
  set_totalSupply (totalSupply s + 1)
    (set_tokenURIs (<[id := uri]> (tokenURIs s))
       (set_events (events s ++ [Transfer 0 to id])
          (set_owners (<[id := to]> (_owners s))
             (set_balances
                (<[to := default 0 (_balances s !! to) + 1]> (_balances s)) s)))).

Lemma mint_quiet_eval recipient id uri ok s :
  _mint recipient id uri (perform (answer ok)) s =
    match ERC721._mint recipient id s with
    | Revert e => Revert e
    | Ok _ =>
        if negb ok
        then Revert (Error "ERC721: transfer to non ERC721Receiver implementer")
        else if bool_decide (String.length uri = 0%nat)
        then Revert (Error "tokenURI cannot be empty")
        else if bool_decide (totalSupply s + 1 < 2 ^ 256)
        then Ok (tt, issued recipient id uri s)
        else Revert (Panic 17)
    end.
Proof.
  destruct (ERC721._mint recipient id s) as [[[] s1]|e] eqn:E;
    unfold _mint, ERC721._safeMint, bind; rewrite E; [|done].
  assert (s1 = set_events (events s ++ [Transfer 0 recipient id])
                 (set_owners (<[id := recipient]> (_owners s))
                    (set_balances
                       (<[recipient := default 0 (_balances s !! recipient) + 1]>
                          (_balances s)) s))) as ->.
  { rewrite ERC721_mint_eval in E. repeat case_match; by simplify_eq. }
  cbn. destruct ok; cbn; [|done].
  unfold _setTokenURI, checked_add, bind, require, write, read, ret, lift.
  destruct (bool_decide (String.length uri = 0%nat)); cbn; [done|].
  by destruct (bool_decide (totalSupply s + 1 < 2 ^ 256)).
Qed.

(** X8.  Direct issuance to a recipient whose receiver hook accepts and
    makes no call of its own succeeds exactly when the caller is the
    principal, the identifier is vacant, the recipient is not the zero
    address, the pointer is not empty, and neither the recipient's token
    count nor the supply is at the top of its range.  It then leaves the
    identifier with the recipient, its pointer stored, the supply one higher
    and a [Transfer] from the zero address in the log, and touches no other
    identifier, flag, floor or balance. *)
Theorem mintAuthorized_succeeds_iff (s : state) (sender recipient : address)
    (id : uint256) (uri : string) :
  let c := MintAuthorized recipient id uri (answer true) in
  ((∃ s', exec sender c s = Ok (tt, s')) ↔
     sender = owner s
     ∧ claimed s id = false ∧ revoked s id = false ∧ idFloor s ≤ id
     ∧ recipient ≠ 0 ∧ String.length uri ≠ 0%nat
     ∧ default 0 (_balances s !! recipient) + 1 < 2 ^ 256
     ∧ totalSupply s + 1 < 2 ^ 256)
  ∧ (∀ s', exec sender c s = Ok (tt, s') →
       s' = issued recipient id uri s
       ∧ _owners s' !! id = Some recipient
       ∧ tokenURI id s' = Ok (uri, s')
       ∧ totalSupply s' = totalSupply s + 1
       ∧ events s' = events s ++ [Transfer 0 recipient id]
       ∧ revokedIds s' = revokedIds s ∧ idFloor s' = idFloor s
       ∧ balance s' = balance s
       ∧ ∀ id', id' ≠ id →
           _owners s' !! id' = _owners s !! id'
           ∧ tokenURIs s' !! id' = tokenURIs s !! id').
Proof.
  intros c.
  assert (∀ s', exec sender c s = Ok (tt, s') →
            sender = owner s ∧ vacant id s = Ok (true, s)
            ∧ recipient ≠ 0 ∧ String.length uri ≠ 0%nat
            ∧ default 0 (_balances s !! recipient) + 1 < 2 ^ 256
            ∧ totalSupply s + 1 < 2 ^ 256
            ∧ s' = issued recipient id uri s) as Hinv.
  { intros s' H. subst c. cbn [exec] in H.
    apply mintAuthorized_Ok in H as (Ho & Hv & H).
    rewrite mint_quiet_eval, ERC721_mint_eval in H.
    repeat case_bool_decide; try done; destruct (claimed s id); try done.
    cbn in H. by simplify_eq. }
  split.
  - split.
    + intros [s' (Ho & Hv & Hto & Hu & Hb & Ht & _)%Hinv].
      apply vacant_Ok in Hv as (_ & _ & Hc & Hr & Hf). done.
    + intros (Ho & Hc & Hr & Hf & Hto & Hu & Hb & Ht).
      exists (issued recipient id uri s). subst c. cbn [exec].
      unfold mintAuthorized, bind at 1, read. unfold bind at 1, require.
      rewrite bool_decide_eq_true_2 by done.
      unfold bind at 1. rewrite vacant_eval, Hc, Hr.
      rewrite bool_decide_eq_true_2 by done. unfold bind at 1. cbn [require].
      rewrite mint_quiet_eval, ERC721_mint_eval, Hc.
      rewrite bool_decide_eq_false_2 by done.
      rewrite bool_decide_eq_true_2 by done. cbn.
      rewrite bool_decide_eq_false_2 by done.
      by rewrite bool_decide_eq_true_2 by done.
  - intros s' (_ & _ & _ & _ & _ & _ & ->)%Hinv.
    unfold tokenURI, read, issued. cbn. rewrite !lookup_insert_eq.
    split_and!; try done. intros id' Hne. by rewrite !lookup_insert_ne.
Qed.

(** X9.  [mintAuthorized] stops at the first check that fails, in this
    order: the caller, the availability of the identifier, the zero address,
    and - for a recipient whose hook makes no call of its own - the hook's
    answer, then the empty pointer.  The recipient's code is not run when
    one of the first three fails. *)
Theorem mintAuthorized_first_failure (s : state) (sender recipient : address)
    (id : uint256) (uri : string) (k : callee) :
  (sender ≠ owner s →
     exec sender (MintAuthorized recipient id uri k) s =
       Revert (Error "unauthorized to mint"))
  ∧ (sender = owner s → ∀ e, vacant id s = Revert e →
       exec sender (MintAuthorized recipient id uri k) s = Revert e)
  ∧ (sender = owner s → vacant id s = Ok (true, s) → recipient = 0 →
       exec sender (MintAuthorized recipient id uri k) s =
         Revert (Error "ERC721: mint to the zero address"))
  ∧ (sender = owner s → vacant id s = Ok (true, s) → recipient ≠ 0 →
     default 0 (_balances s !! recipient) + 1 < 2 ^ 256 →
       exec sender (MintAuthorized recipient id uri (answer false)) s =
         Revert (Error "ERC721: transfer to non ERC721Receiver implementer")
       ∧ exec sender (MintAuthorized recipient id "" (answer true)) s =
           Revert (Error "tokenURI cannot be empty")).
Proof.
  assert (∀ uri' k', sender = owner s → vacant id s = Ok (true, s) →
            exec sender (MintAuthorized recipient id uri' k') s =
              _mint recipient id uri' (perform k') s) as Hpass.
  { intros uri' k' Ho Hv. cbn [exec]. unfold mintAuthorized, bind at 1, read.
    unfold bind at 1, require. rewrite bool_decide_eq_true_2 by done.
    unfold bind at 1. rewrite Hv. by unfold bind at 1. }
  split_and!.
  - intros Hne. cbn [exec]. by apply mintAuthorized_unauthorized.
  - intros Ho e Hv. cbn [exec]. by apply mintAuthorized_unavailable.
  - intros Ho Hv ->. rewrite Hpass by done.
    unfold _mint, ERC721._safeMint. apply bind_fail, bind_fail.
    by rewrite ERC721_mint_eval.
  - intros Ho Hv Hto Hb. pose proof Hv as (_ & _ & Hc & _)%vacant_Ok.
    rewrite !Hpass by done. rewrite !mint_quiet_eval, ERC721_mint_eval, Hc.
    rewrite bool_decide_eq_false_2 by done.
    by rewrite bool_decide_eq_true_2 by done.
Qed.

(** X10.  Issuance with a signature, by a caller whose receiver hook accepts
    and makes no call of its own, succeeds exactly when the identifier is
    vacant, the signature over (attached value, identifier, pointer) recovers
    to the principal, the caller is not the zero address, the pointer is not
    empty and neither counter is at the top of its range.  The caller becomes
    the holder, the pointer is stored, and the attached value, whatever it
    is, stays in the contract's balance. *)
Theorem mint_succeeds_iff (s : state) (sender : address) (value id : uint256)
    (uri : string) (signature : list Byte.byte) :
  let c := Mint value id uri signature (answer true) in
  ((∃ s', exec sender c s = Ok (tt, s')) ↔
     claimed s id = false ∧ revoked s id = false ∧ idFloor s ≤ id
     ∧ ECDSA_recover (_hash value id uri) signature = Ok (owner s)
     ∧ sender ≠ 0 ∧ String.length uri ≠ 0%nat
     ∧ default 0 (_balances s !! sender) + 1 < 2 ^ 256
     ∧ totalSupply s + 1 < 2 ^ 256)
  ∧ (∀ s', exec sender c s = Ok (tt, s') →
       s' = issued sender id uri (set_balance (balance s + value) s)
       ∧ _owners s' !! id = Some sender
       ∧ tokenURI id s' = Ok (uri, s')
       ∧ totalSupply s' = totalSupply s + 1
       ∧ balance s' = balance s + value).
Proof.
  intros c.
  assert (∀ s', exec sender c s = Ok (tt, s') →
            vacant id s = Ok (true, s)
            ∧ ECDSA_recover (_hash value id uri) signature = Ok (owner s)
            ∧ sender ≠ 0 ∧ String.length uri ≠ 0%nat
            ∧ default 0 (_balances s !! sender) + 1 < 2 ^ 256
            ∧ totalSupply s + 1 < 2 ^ 256
            ∧ s' = issued sender id uri (set_balance (balance s + value) s)) as Hinv.
  { intros s' H. subst c. cbn [exec] in H.
    apply bind_Ok in H as (? & s0 & ->%write_Ok & H).
    apply mint_Ok_checked in H as (Hm & H).
    rewrite mintable_payable in Hm.
    destruct (mintable value id uri signature s) as [[b s1]|e] eqn:Em; [|done].
    apply mintable_Ok in Em as (_ & _ & Hv & Hsig).
    rewrite mint_quiet_eval, ERC721_mint_eval in H.
    repeat case_bool_decide; try done;
      destruct (claimed (set_balance (balance s + value) s) id); try done.
    cbn in H. by simplify_eq. }
  split.
  - split.
    + intros [s' (Hv & Hsig & Hto & Hu & Hb & Ht & _)%Hinv].
      apply vacant_Ok in Hv as (_ & _ & Hc & Hr & Hf). done.
    + intros (Hc & Hr & Hf & Hsig & Hto & Hu & Hb & Ht).
      exists (issued sender id uri (set_balance (balance s + value) s)).
      subst c. cbn [exec]. unfold payable.
      rewrite (bind_step _ _ s tt (set_balance (balance s + value) s)) by done.
      unfold mint.
      assert (mintable value id uri signature (set_balance (balance s + value) s) =
                Ok (true, set_balance (balance s + value) s)) as Hm.
      { rewrite mintable_payable, mintable_eval, vacant_eval, Hc, Hr, Hsig.
        by rewrite !bool_decide_eq_true_2 by done. }
      rewrite (bind_step _ _ _ _ _ Hm).
      rewrite (bind_step _ _ _ tt (set_balance (balance s + value) s)) by done.
      rewrite mint_quiet_eval, ERC721_mint_eval.
      change (claimed (set_balance (balance s + value) s) id) with (claimed s id).
      rewrite Hc. rewrite bool_decide_eq_false_2 by done.
      cbn. rewrite bool_decide_eq_true_2 by done. cbn.
      rewrite bool_decide_eq_false_2 by done.
      by rewrite bool_decide_eq_true_2 by done.
  - intros s' (_ & _ & _ & _ & _ & _ & ->)%Hinv.
    unfold tokenURI, read, issued. cbn. by rewrite !lookup_insert_eq.
Qed.

(** ** Where the balance goes *)

(** Whether a call, or a call made by foreign code inside it, is a
    [withdraw] called by [o]. *)
Fixpoint withdraws (o sender : address) (c : call) {struct c} : bool :=
  match c with
  | Withdraw k => bool_decide (sender = o) || callee_withdraws o k
  | MintAuthorized _ _ _ k => callee_withdraws o k
  | Mint _ _ _ _ k => callee_withdraws o k
  | SafeTransferFrom _ _ _ k => callee_withdraws o k
  | _ => false
  end
with callee_withdraws (o : address) (k : callee) {struct k} : bool :=
  match k with
  | answer _ => false
  | reenter a c k' => withdraws o a c || callee_withdraws o k'
  end.

(** While [o] is the principal, the balance does not go down. *)
Definition keeps_funds (o : address) (s s' : state) : Prop :=
  owner s = o → owner s' = o ∧ balance s ≤ balance s'.

#[local] Instance keeps_funds_preorder o : PreOrder (keeps_funds o).
Proof.
  split.
  - intros s Ho. split; [done|lia].
  - intros s1 s2 s3 H1 H2 Ho. destruct (H1 Ho) as [Ho2 Hle].
    destruct (H2 Ho2) as [Ho3 Hle']. split; [done|lia].
Qed.

(** A write that leaves the principal and the balance alone. *)
Ltac same_funds :=
  intros; let H := fresh in intros H; split; [exact H|cbn; lia].

Lemma funds_mint o recipient id uri (hook : external) :
  (∀ s, keeps_funds o s (hook s).1) →
  preserves (keeps_funds o) (_mint recipient id uri hook).
Proof.
  intros Hh s u s' (s1 & s2 & Hm & Hk & _ & ->)%mint_Ok Ho.
  apply ERC721_mint_Ok in Hm as (_ & _ & _ & _ & _ & _ & _ & Ho1 & Hb1).
  specialize (Hh s1). rewrite Hk in Hh. destruct Hh as [Ho2 Hle]; [congruence|].
  cbn in *. split; [done|lia].
Qed.

Lemma funds_burn o id : preserves (keeps_funds o) (_burn id).
Proof.
  intros s u s' (s1 & Hb & _ & ->)%burn_Ok Ho.
  apply ERC721_burn_Ok in Hb as (_ & _ & _ & _ & _ & _ & Ho1 & Hb1).
  cbn. split; [congruence|lia].
Qed.

Lemma funds_transfer o from to id :
  preserves (keeps_funds o) (ERC721._transfer from to id).
Proof.
  intros s u s' (_ & _ & _ & _ & _ & _ & _ & Ho1 & Hb1)%ERC721_transfer_Ok Ho.
  split; [congruence|lia].
Qed.

Lemma funds_calls o :
  (∀ c sender, withdraws o sender c = false →
     preserves (keeps_funds o) (exec sender c)) ∧
  (∀ k, callee_withdraws o k = false → ∀ s, keeps_funds o s (perform k s).1).
Proof.
  apply call_mutind; cbn [exec perform withdraws callee_withdraws].
  - intros value sender _ s u s' H Ho. unfold payable, receive in H. run_inv.
    cbn. split; [done|lia].
  - intros k IH sender [Hs _]%orb_false_iff s u s' H Ho.
    apply bool_decide_eq_false_1 in Hs. rewrite withdraw_eval in H.
    rewrite bool_decide_eq_false_2 in H by congruence. done.
  - intros recipient id uri k IH sender Hk.
    apply (preserves_mintAuthorized (keeps_funds o)); [apply funds_mint|by apply IH].
  - intros value id uri signature k IH sender Hk s u s' H.
    apply bind_Ok in H as (? & s0 & ->%write_Ok & H).
    apply mint_Ok_checked in H as (_ & H).
    transitivity (set_balance (balance s + value) s).
    + intros Ho. cbn. split; [done|lia].
    + eapply funds_mint; [|done]. by apply IH.
  - intros id sender _. apply (preserves_revokeId (keeps_funds o)); same_funds.
  - intros floor sender _. apply (preserves_setIdFloor (keeps_funds o)); same_funds.
  - intros id sender _. apply (preserves_burn (keeps_funds o)), funds_burn.
  - intros to id sender _. apply (preserves_approve (keeps_funds o)); same_funds.
  - intros operator approved sender _.
    apply (preserves_setApprovalForAll (keeps_funds o)); same_funds.
  - intros from to id sender _.
    apply (preserves_transferFrom (keeps_funds o)), funds_transfer.
  - intros from to id k IH sender Hk.
    apply (preserves_safeTransferFrom (keeps_funds o));
      [apply funds_transfer|by apply IH].
  - intros ok _ s. done.
  - intros a c IHc k IHk [Hc Hk]%orb_false_iff s.
    destruct (exec a c s) as [[[] s1]|e] eqn:E; [|by apply IHk].
    transitivity s1; [by eapply IHc|by apply IHk].
Qed.

(** X11.  Value leaves the contract only through [withdraw] called by the
    principal: along any sequence of transactions in which the principal
    calls no [withdraw], not even from inside a receiver hook, the balance
    never goes down, whoever calls whatever else. *)
Theorem funds_leave_only_by_withdraw (s : state) (ts : list (address * call)) :
  Forall (λ t, withdraws (owner s) t.1 t.2 = false) ts →
  owner (run ts s) = owner s ∧ balance s ≤ balance (run ts s).
Proof.
  intros Hts.
  assert (keeps_funds (owner s) s (run ts s)) as H; [|by apply H].
  revert s Hts. induction ts as [|t ts IH] using rev_ind; intros s Hts; [done|].
  apply Forall_app in Hts as [Hts Ht]. rewrite Forall_singleton in Ht.
  rewrite run_snoc. transitivity (run ts s); [by apply IH|].
  intros Ho. unfold transact.
  destruct (exec t.1 t.2 (run ts s)) as [[[] s']|e] eqn:E; [|split; [done|lia]].
  eapply (proj1 (funds_calls (owner s))); eauto.
Qed.

(** The sum of a list of amounts. *)
Definition total (values : list uint256) : uint256 := foldr N.add 0 values.

Lemma total_snoc values v : total (values ++ [v]) = total values + v.
Proof.
  unfold total. induction values as [|x xs IH]; cbn; [lia|]. rewrite IH. lia.
Qed.

(** X12.  Plain value transfers are accepted from anyone and for any amount,
    zero included; each adds its amount to the balance and a [Receipt] to the
    log and touches nothing else, the ownership component's token counts and
    approvals included.  So after any list of them the balance is
    up by their sum, and a withdrawal by the principal then pays out the old
    balance plus that sum and leaves nothing. *)
Theorem deposits_add_up (s : state) (deposits : list (address * uint256)) :
  let s' := run (map (λ d, (d.1, Receive d.2)) deposits) s in
  balance s' = balance s + total (map snd deposits)
  ∧ events s' = events s ++ map Receipt (map snd deposits)
  ∧ _owners s' = _owners s ∧ tokenURIs s' = tokenURIs s
  ∧ revokedIds s' = revokedIds s ∧ idFloor s' = idFloor s
  ∧ totalSupply s' = totalSupply s ∧ owner s' = owner s
  ∧ _balances s' = _balances s ∧ _tokenApprovals s' = _tokenApprovals s
  ∧ _operatorApprovals s' = _operatorApprovals s
  ∧ (let s'' := transact s' (owner s, Withdraw (answer true)) in
     balance s'' = 0
     ∧ events s'' = events s' ++ [Withdrawal (balance s + total (map snd deposits))]).
Proof.
  intros s'.
  assert (balance s' = balance s + total (map snd deposits)
          ∧ events s' = events s ++ map Receipt (map snd deposits)
          ∧ _owners s' = _owners s ∧ tokenURIs s' = tokenURIs s
          ∧ revokedIds s' = revokedIds s ∧ idFloor s' = idFloor s
          ∧ totalSupply s' = totalSupply s ∧ owner s' = owner s
          ∧ _balances s' = _balances s ∧ _tokenApprovals s' = _tokenApprovals s
          ∧ _operatorApprovals s' = _operatorApprovals s) as H.
  { subst s'. induction deposits as [|[a v] ds IH] using rev_ind.
    - cbn. rewrite app_nil_r. split_and!; try done. unfold total. cbn. lia.
    - rewrite !map_app. cbn [map]. rewrite !run_snoc. unfold transact.
      cbn [fst snd exec]. unfold payable, receive, emit, bind, write.
      rewrite total_snoc.
      remember (run (map (λ d : N * N, (d.1, Receive d.2)) ds) s) as r.
      cbn. destruct IH as (-> & -> & -> & -> & -> & -> & -> & -> & -> & -> & ->).
      rewrite <- app_assoc. split_and!; try done. lia. }
  destruct H as (Hb & He & Ho & Hu & Hr & Hf & Ht & Hown & Hbs & Hta & Hoa).
  assert (exec (owner s) (Withdraw (answer true)) s' =
            Ok (tt, set_events (events s' ++ [Withdrawal (balance s')])
                      (set_balance 0 s'))) as Hw.
  { cbn [exec perform]. rewrite withdraw_eval. by rewrite bool_decide_eq_true_2. }
  split_and!; try done.
  rewrite (transact_ok _ _ _ _ Hw). cbn. by rewrite Hb.
Qed.

(** ** A holder can always burn *)

(** How many identifiers an account holds. *)
Definition held_by (s : state) (a : address) : N :=
  N.of_nat (size (filter (λ p : N * N, p.2 = a) (_owners s))).

(** The token count the ownership component keeps for each account is the
    number of identifiers the account holds. *)
Definition counts_tokens (s : state) : Prop :=
  ∀ a, a ≠ 0 → default 0 (_balances s !! a) = held_by s a.

Definition keeps_counts (s s' : state) : Prop := counts_tokens s → counts_tokens s'.

#[local] Instance keeps_counts_preorder : PreOrder keeps_counts.
Proof.
  split.
  - intros s H. exact H.
  - intros s1 s2 s3 H1 H2 H. exact (H2 (H1 H)).
Qed.

Lemma size_held_insert (m : gmap N N) id to a :
  size (filter (λ p : N * N, p.2 = a) (<[id := to]> m)) =
    (size (filter (λ p : N * N, p.2 = a) (delete id m))
     + if decide (to = a) then 1 else 0)%nat.
Proof.
  rewrite <- (insert_delete_eq m). rewrite map_filter_insert. cbn.
  case_decide.
  - rewrite map_size_insert_None; [lia|].
    apply map_lookup_filter_None. left. apply lookup_delete_eq.
  - rewrite delete_delete_eq. lia.
Qed.

Lemma size_held_lookup (m : gmap N N) id a :
  size (filter (λ p : N * N, p.2 = a) m) =
    (size (filter (λ p : N * N, p.2 = a) (delete id m))
     + if decide (m !! id = Some a) then 1 else 0)%nat.
Proof.
  destruct (m !! id) as [o|] eqn:E.
  - rewrite <- (insert_id m id o E) at 1. rewrite size_held_insert.
    repeat case_decide; congruence.
  - rewrite (delete_id m id E). case_decide; [congruence|lia].
Qed.

Lemma ERC721_burn_Ok_counts id s u s' :
  ERC721._burn id s = Ok (u, s') →
  ∃ o, _owners s !! id = Some o ∧ o ≠ 0
       ∧ 1 ≤ default 0 (_balances s !! o)
       ∧ _balances s' = <[o := default 0 (_balances s !! o) - 1]> (_balances s)
       ∧ _owners s' = delete id (_owners s).
Proof.
  intros H. unfold ERC721._burn, ERC721._approve, ERC721.ownerOf in H.
  run_inv. cbn in *. exists (default 0 (_owners s !! id)).
  split_and!; try done. by destruct (_owners s !! id).
Qed.

Lemma ERC721_transfer_Ok_counts from to id s u s' :
  ERC721._transfer from to id s = Ok (u, s') →
  _owners s !! id = Some from ∧ from ≠ 0 ∧ to ≠ 0
  ∧ 1 ≤ default 0 (_balances s !! from)
  ∧ _balances s' =
      <[to := default 0
                (<[from := default 0 (_balances s !! from) - 1]> (_balances s)
                   !! to) + 1]>
        (<[from := default 0 (_balances s !! from) - 1]> (_balances s))
  ∧ _owners s' = <[id := to]> (_owners s).
Proof.
  intros H. unfold ERC721._transfer, ERC721._approve, ERC721.ownerOf in H.
  run_inv. cbn in *. subst from.
  split_and!; try done. by destruct (_owners s !! id).
Qed.

Lemma counts_mint recipient id uri (hook : external) :
  (∀ s, keeps_counts s (hook s).1) → preserves keeps_counts (_mint recipient id uri hook).
Proof.
  intros Hh s u s' (s1 & s2 & Hm & Hk & _ & ->)%mint_Ok Hcount.
  specialize (Hh s1). rewrite Hk in Hh.
  assert (counts_tokens s1) as H1; [|exact (Hh H1)].
  rewrite ERC721_mint_eval in Hm.
  destruct (bool_decide (recipient = 0)); [done|].
  destruct (claimed s id) eqn:Hc; [done|].
  destruct (bool_decide (default 0 (_balances s !! recipient) + 1 < 2 ^ 256));
    [|done].
  simplify_eq.
  unfold claimed in Hc. apply negb_false_iff, bool_decide_eq_true_1 in Hc.
  intros a Ha. unfold held_by. cbn.
  rewrite size_held_insert.
  pose proof (Hcount a Ha) as Hold. unfold held_by in Hold.
  rewrite (size_held_lookup _ id a) in Hold.
  rewrite (decide_False (P := _owners s !! id = Some a)) in Hold
    by (intros E; rewrite E in Hc; done).
  destruct (decide (recipient = a)) as [->|Hne].
  - rewrite lookup_insert_eq. cbn. lia.
  - rewrite lookup_insert_ne by done. lia.
Qed.

Lemma counts_burn id : preserves keeps_counts (_burn id).
Proof.
  intros s u s' (s1 & Hb & _ & ->)%burn_Ok Hcount.
  apply ERC721_burn_Ok_counts in Hb as (o & Ho & Hnz & Hpos & Hbal & Hown).
  intros a Ha. unfold held_by. cbn. rewrite Hbal, Hown.
  pose proof (Hcount a Ha) as Hold. unfold held_by in Hold.
  rewrite (size_held_lookup _ id a), Ho in Hold.
  destruct (decide (o = a)) as [->|Hne].
  - rewrite lookup_insert_eq. cbn. rewrite decide_True in Hold by done. lia.
  - rewrite lookup_insert_ne by done.
    rewrite decide_False in Hold by congruence. lia.
Qed.

Lemma counts_transfer from to id : preserves keeps_counts (ERC721._transfer from to id).
Proof.
  intros s u s' (Ho & Hnz & Hto & Hpos & Hbal & Hown)%ERC721_transfer_Ok_counts Hcount.
  intros a Ha. unfold held_by. rewrite Hbal, Hown, size_held_insert.
  pose proof (Hcount a Ha) as Hold. unfold held_by in Hold.
  rewrite (size_held_lookup _ id a), Ho in Hold.
  destruct (decide (to = a)) as [->|Hne].
  - rewrite lookup_insert_eq. cbn. destruct (decide (from = a)) as [->|Hne'].
    + rewrite lookup_insert_eq. cbn. rewrite decide_True in Hold by done. lia.
    + rewrite lookup_insert_ne by done.
      rewrite decide_False in Hold by congruence. lia.
  - rewrite lookup_insert_ne by done. destruct (decide (from = a)) as [->|Hne'].
    + rewrite lookup_insert_eq. cbn. rewrite decide_True in Hold by done. lia.
    + rewrite lookup_insert_ne by done.
      rewrite decide_False in Hold by congruence. lia.
Qed.

Lemma counts_run ts s : keeps_counts s (run ts s).
Proof.
  apply (run_preserve keeps_counts); try (intros ? ? Hx; exact Hx).
  - intros s0 floor _ Hx. exact Hx.
  - apply counts_mint.
  - apply counts_burn.
  - apply counts_transfer.
Qed.

Lemma isApprovedOrOwner_holder id s :
  claimed s id = true →
  ERC721._isApprovedOrOwner (default 0 (_owners s !! id)) id s = Ok (true, s).
Proof.
  intros Hc. pose proof Hc as Hnz.
  unfold claimed in Hnz. apply negb_true_iff in Hnz.
  unfold ERC721._isApprovedOrOwner, ERC721.getApproved, ERC721.ownerOf,
    ERC721._exists, ERC721.isApprovedForAll, bind, read, require, ret.
  cbn. repeat (rewrite Hnz; cbn). by rewrite bool_decide_eq_true_2.
Qed.

Lemma ERC721_burn_holder id s :
  claimed s id = true →
  1 ≤ default 0 (_balances s !! default 0 (_owners s !! id)) →
  ∃ s1, ERC721._burn id s = Ok (tt, s1) ∧ totalSupply s1 = totalSupply s.
Proof.
  intros Hc Hpos. pose proof Hc as Hnz.
  unfold claimed in Hnz. apply negb_true_iff in Hnz.
  unfold ERC721._burn, ERC721._approve, ERC721.ownerOf, checked_sub,
    bind, read, require, write, emit, ret.
  cbn. repeat (rewrite Hnz; cbn). rewrite bool_decide_eq_true_2 by done. eauto.
Qed.

Lemma burn_holder_Ok s id holder :
  counts_tokens s → totalSupply s = claimed_count s →
  ERC721.ownerOf id s = Ok (holder, s) →
  ∃ s', burn holder id s = Ok (tt, s').
Proof.
  intros Hcount Hsupply Hown.
  assert (claimed s id = true ∧ default 0 (_owners s !! id) = holder) as [Hc Hh].
  { unfold ERC721.ownerOf in Hown. run_inv. unfold claimed.
    unfold ret in Hown.
    split; [|congruence]. by rewrite bool_decide_eq_false_2. }
  assert (holder ≠ 0) as Hnz.
  { unfold claimed in Hc. apply negb_true_iff, bool_decide_eq_false_1 in Hc.
    congruence. }
  assert (1 ≤ default 0 (_balances s !! holder)) as Hpos.
  { rewrite (Hcount holder Hnz). unfold held_by.
    assert (size (filter (λ p : N * N, p.2 = holder) (_owners s)) ≠ 0%nat); [|lia].
    apply (map_size_ne_0_lookup_2 _ id). exists holder.
    apply map_lookup_filter_Some. split; [|done].
    destruct (_owners s !! id) as [o|]; cbn in Hh; congruence. }
  assert (1 ≤ totalSupply s) as Hsup.
  { apply claimed_lookup in Hc.
    assert (size (claimed_ids s) ≠ 0%nat) by by eapply map_size_ne_0_lookup_2.
    unfold claimed_count in Hsupply. lia. }
  destruct (ERC721_burn_holder id s Hc) as (s1 & Hb1 & Ht1); [by rewrite Hh|].
  unfold burn, ERC721.burn.
  pose proof (isApprovedOrOwner_holder id s Hc) as Hok. rewrite Hh in Hok.
  rewrite (bind_step _ _ _ _ _ Hok).
  rewrite (bind_step _ _ s tt s) by done.
  unfold _burn. rewrite (bind_step _ _ _ _ _ Hb1).
  unfold checked_sub, bind, read, write, ret. cbn. rewrite Ht1.
  rewrite bool_decide_eq_true_2 by done. eauto.
Qed.

(** X13.  In every state reached from deployment the holder of an
    identifier can burn it: neither the holder's token count nor
    [totalSupply] can be too low for the decrements of [_burn].  The burn
    leaves the identifier unclaimed and revoked, its pointer empty and the
    supply one lower. *)
Theorem holder_can_burn (deployer : address) (funds : uint256)
    (ts : list (address * call)) (id : uint256) (holder : address) :
  let s := run ts (constructor deployer funds) in
  ERC721.ownerOf id s = Ok (holder, s) →
  ∃ s', exec holder (Burn id) s = Ok (tt, s')
        ∧ claimed s' id = false ∧ revoked s' id = true
        ∧ tokenURI id s' = Ok ("", s')
        ∧ totalSupply s' + 1 = totalSupply s.
Proof.
  intros s Hown.
  destruct (burn_holder_Ok s id holder) as [s' Hx]; [| |done|].
  - apply counts_run. intros a _. unfold held_by. cbn.
    by rewrite map_filter_empty, map_size_empty.
  - pose proof (balanced_run ts (constructor deployer funds)) as Hb.
    fold s in Hb. unfold balanced, surplus in Hb.
    assert (claimed_count (constructor deployer funds) = 0) as Hz.
    { unfold claimed_count, claimed_ids. cbn.
      by rewrite map_filter_empty, map_size_empty. }
    rewrite Hz in Hb. cbn in Hb. lia.
  - exists s'. split; [done|].
    apply burn_supply in Hx as (_ & ? & ? & ? & ?). done.
Qed.

End NFTagent.

(** ** Concrete runs *)

(** A stand-in for the signature scheme, enough to run the contract: the
    digest adds price and identifier, and a signature is the single byte that
    names its signer; anything else is malformed. *)
Definition demo_hash (weiPrice id : uint256) (uri : string) : bytes32 :=
  weiPrice + id.

Definition demo_recover (digest : bytes32) (signature : list Byte.byte) : result address :=
  match signature with
  | [b] => Ok (Byte.to_N b)
  | _ => Revert (Error "ECDSA: invalid signature length")
  end.

Definition demo_exec := exec demo_hash demo_recover.
Definition demo_transact := transact demo_hash demo_recover.
Definition demo_run := run demo_hash demo_recover.

(** The contract as deployed by account 1 with no funds. *)
Definition fresh : state := constructor 1 0.

(** Account 2 redeems the principal's signature for (price 0, id 5,
    "ipfs://x"); the same call again is rejected for availability. *)
Example replay_rejected :
  let offer := Mint 0 5 "ipfs://x" [Byte.x01] (answer true) in
  let s := demo_transact fresh (2, offer) in
  claimed s 5 = true ∧ totalSupply s = 1
  ∧ tokenURI 5 s = Ok ("ipfs://x", s)
  ∧ demo_exec 3 offer s = Revert (Error "tokenId already minted")
  ∧ demo_exec 2 (Mint 0 6 "ipfs://y" [Byte.x02] (answer true)) s =
      Revert (Error "signature invalid or signer unauthorized")
  ∧ demo_exec 2 (Mint 0 6 "ipfs://y" [] (answer true)) s =
      Revert (Error "ECDSA: invalid signature length").
Proof. vm_compute. by split_and!. Qed.

(** Raising the floor to 10 with 3, 7 and 12 unclaimed. *)
Example floor_10 :
  let s := demo_transact fresh (1, SetIdFloor 10) in
  idFloor s = 10
  ∧ vacant 3 s = Revert (Error "tokenId below floor")
  ∧ vacant 7 s = Revert (Error "tokenId below floor")
  ∧ vacant 12 s = Ok (true, s)
  ∧ demo_exec 1 (SetIdFloor 10) s = Revert (Error "must exceed current floor")
  ∧ demo_exec 2 (SetIdFloor 11) s = Revert (Error "unauthorized to set idFloor").
Proof. vm_compute. by split_and!. Qed.

(** Issue, burn, and the identifier is spent. *)
Example burn_spends :
  let s := demo_run [(1, MintAuthorized 7 4 "ipfs://a" (answer true)); (7, Burn 4)] fresh in
  claimed s 4 = false ∧ revoked s 4 = true ∧ totalSupply s = 0
  ∧ tokenURI 4 s = Ok ("", s)
  ∧ vacant 4 s = Revert (Error "tokenId revoked or burnt").
Proof. vm_compute. by split_and!. Qed.

(** Revocation by the principal, and by someone else. *)
Example revoke_5 :
  let s := demo_transact fresh (1, RevokeId 5) in
  revoked s 5 = true
  ∧ vacant 5 s = Revert (Error "tokenId revoked or burnt")
  ∧ demo_exec 2 (RevokeId 6) s = Revert (Error "unauthorized to revoke id")
  ∧ demo_exec 1 (RevokeId 5) s = Revert (Error "tokenId revoked or burnt").
Proof. vm_compute. by split_and!. Qed.

(** An empty pointer, with everything else in order. *)
Example empty_uri_data_error :
  demo_exec 1 (MintAuthorized 3 5 "" (answer true)) fresh =
    Revert (Error "tokenURI cannot be empty")
  ∧ demo_exec 2 (Mint 0 5 "" [Byte.x01] (answer true)) fresh =
      Revert (Error "tokenURI cannot be empty")
  ∧ demo_exec 2 (MintAuthorized 3 5 "" (answer true)) fresh =
      Revert (Error "unauthorized to mint")
  ∧ demo_exec 1 (MintAuthorized 3 5 "" (answer false)) fresh =
      Revert (Error "ERC721: transfer to non ERC721Receiver implementer").
Proof. vm_compute. by split_and!. Qed.

(** Withdrawal of a balance of 5. *)
Example withdraw_5 :
  let s := constructor 1 5 in
  let s' := demo_transact s (1, Withdraw (answer true)) in
  balance s' = 0 ∧ events s' = [Withdrawal 5]
  ∧ demo_exec 2 (Withdraw (answer true)) s = Revert (Error "unauthorized to withdraw")
  ∧ demo_exec 1 (Withdraw (answer false)) s = Revert (Error "transfer failed")
  ∧ demo_transact s (1, Withdraw (answer false)) = s.
Proof. vm_compute. by split_and!. Qed.

Lemma revoked_is_permanent_witness :
  let s' := demo_transact fresh (1, RevokeId 5) in
  let later :=
    demo_run [(2, Mint 0 5 "ipfs://x" [Byte.x01] (answer true));
              (1, MintAuthorized 3 5 "ipfs://x" (answer true));
              (1, SetIdFloor 2)] s' in
  revoked s' 5 = true ∧ revoked later 5 = true ∧ ∀ r, vacant 5 later ≠ Ok r.
Proof.
  intros s' later.
  apply (revoked_is_permanent demo_hash demo_recover fresh s' 1 (RevokeId 5) 5).
  - vm_compute. reflexivity.
  - right. left. reflexivity.
Defined.

Lemma setIdFloor_frame_witness :
  let s' := demo_transact fresh (1, SetIdFloor 10) in
  idFloor fresh < 10
  ∧ vacant 3 s' = Revert (Error "tokenId below floor")
  ∧ vacant 7 s' = Revert (Error "tokenId below floor")
  ∧ vacant 12 s' = Ok (true, s').
Proof.
  intros s'.
  assert (setIdFloor 1 10 fresh = Ok (tt, s')) as H by (vm_compute; reflexivity).
  pose proof (setIdFloor_frame fresh s' 1 10 H) as (Hlt & _ & _ & _ & _ & Hv).
  split; [exact Hlt|].
  split; [apply (Hv 3); [reflexivity|reflexivity|reflexivity]|].
  split; [apply (Hv 7); [reflexivity|reflexivity|reflexivity]|].
  apply (Hv 12); [reflexivity|reflexivity|]. vm_compute. discriminate.
Defined.

(** The principal issues identifier 5, vacant, with an empty pointer to the
    zero address: the call reverts in the ownership component, before the
    pointer is looked at. *)
Lemma empty_uri_zero_recipient :
  vacant 5 fresh = Ok (true, fresh)
  ∧ demo_exec 1 (MintAuthorized 0 5 "" (answer true)) fresh =
      Revert (Error "ERC721: mint to the zero address")
  ∧ demo_exec 1 (MintAuthorized 0 5 "" (answer true)) fresh ≠
      Revert (Error "tokenURI cannot be empty").
Proof. vm_compute. by split_and!. Qed.

(** The principal withdraws a balance of 5 and its receiving code pays 2
    back while the transfer is under way: the withdrawal succeeds and leaves
    a balance of 2. *)
Lemma withdraw_paid_back :
  let s := constructor 1 5 in
  let s' := demo_transact s (1, Withdraw (reenter 1 (Receive 2) (answer true))) in
  demo_exec 1 (Withdraw (reenter 1 (Receive 2) (answer true))) s = Ok (tt, s')
  ∧ events s' = [Receipt 2; Withdrawal 5]
  ∧ balance s' = 2
  ∧ balance s' ≠ 0.
Proof. vm_compute. by split_and!. Qed.

(** The principal withdraws a balance of 5; its receiving code pays 2 back
    and then calls [withdraw] itself, which sends the 2 out again: the
    outer withdrawal succeeds and leaves a balance of 0 and three entries in
    the log. *)
Example withdraw_reentered :
  let s := constructor 1 5 in
  let k := reenter 1 (Receive 2) (reenter 1 (Withdraw (answer true)) (answer true)) in
  let s' := demo_transact s (1, Withdraw k) in
  demo_exec 1 (Withdraw k) s = Ok (tt, s')
  ∧ events s' = [Receipt 2; Withdrawal 2; Withdrawal 5]
  ∧ balance s' = 0.
Proof. vm_compute. by split_and!. Qed.

(** The principal revokes identifier 5 and raises the floor to 10, then
    account 2 deposits 3 and the principal withdraws: the log holds the four
    entries in the order of the calls. *)
Example revoke_raise_log :
  let s1 := demo_transact fresh (1, RevokeId 5) in
  let s2 := demo_transact s1 (1, SetIdFloor 10) in
  let s3 := demo_run [(2, Receive 3); (1, Withdraw (answer true))] s2 in
  revoked s1 5 = true ∧ events s1 = [IdRevoked 5]
  ∧ idFloor s2 = 10 ∧ events s2 = [IdRevoked 5; IdFloorSet 10]
  ∧ events s3 = [IdRevoked 5; IdFloorSet 10; Receipt 3; Withdrawal 3]
  ∧ events (demo_transact s3 (1, RevokeId 5)) = events s3
  ∧ events (demo_transact s3 (1, SetIdFloor 10)) = events s3.
Proof. vm_compute. by split_and!. Qed.

(** C10 on the code.  The principal issues identifier 1 to account 7 and
    then identifier 2 to a contract, 9, whose receiver hook burns the
    identifier it is being handed.  The burn runs between the ownership write
    and the pointer write of [_mint] (lines 145-146), so the pointer is
    stored after the identifier is gone: identifier 2 ends unclaimed and
    revoked, and [tokenURI] answers "ipfs://b" for it, not the empty
    string. *)
Theorem tokenURI_after_burn_in_hook :
  let s := demo_run [(1, MintAuthorized 7 1 "ipfs://a" (answer true));
                     (1, MintAuthorized 9 2 "ipfs://b"
                           (reenter 9 (Burn 2) (answer true)))] fresh in
  claimed s 2 = false ∧ revoked s 2 = true
  ∧ totalSupply s = 1 ∧ claimed_count s = 1
  ∧ tokenURI 2 s = Ok ("ipfs://b", s)
  ∧ tokenURI 2 s ≠ Ok ("", s).
Proof. vm_compute. by split_and!. Qed.

(** ** Runs for the lifecycle, privilege and funds invariants *)

(** Identifier 5 is revoked, then offered twice. *)
Lemma retired_forever_witness :
  let s := demo_transact fresh (1, RevokeId 5) in
  let later :=
    demo_run [(2, Mint 0 5 "ipfs://x" [Byte.x01] (answer true));
              (1, MintAuthorized 3 5 "ipfs://x" (answer true))] s in
  claimed later 5 = false
  ∧ (∃ e, vacant 5 later = Revert e ∧ availability_error e)
  ∧ tokenURI 5 later = Ok (default "" (tokenURIs s !! 5), later).
Proof.
  intros s later.
  apply (retired_forever demo_hash demo_recover s 5).
  - vm_compute. reflexivity.
  - left. vm_compute. reflexivity.
Defined.

(** Identifier 4 is issued to account 7, burnt by it, and offered again. *)
Lemma burnt_pointer_stays_empty_witness :
  let s := demo_transact fresh (1, MintAuthorized 7 4 "ipfs://a" (answer true)) in
  let s' := demo_transact s (7, Burn 4) in
  let later :=
    demo_run [(1, MintAuthorized 7 4 "ipfs://b" (answer true));
              (1, SetIdFloor 9)] s' in
  claimed later 4 = false ∧ revoked later 4 = true
  ∧ tokenURI 4 later = Ok ("", later).
Proof.
  intros s s' later.
  apply (burnt_pointer_stays_empty demo_hash demo_recover s s' 7 4).
  vm_compute. reflexivity.
Defined.

(** The floor goes to 10, and identifier 3 is offered. *)
Lemma raised_floor_closes_range_witness :
  let s' := demo_transact fresh (1, SetIdFloor 10) in
  let later := demo_run [(1, MintAuthorized 3 3 "ipfs://x" (answer true))] s' in
  claimed later 3 = false
  ∧ ∃ e, vacant 3 later = Revert e ∧ availability_error e.
Proof.
  intros s' later.
  apply (raised_floor_closes_range demo_hash demo_recover fresh s' 1 10 3).
  - vm_compute. reflexivity.
  - reflexivity.
  - vm_compute. reflexivity.
Defined.

(** Identifier 4 is issued by the principal, burnt by its holder, and then
    offered with a signature. *)
Lemma issued_at_most_once_witness :
  let s' := demo_transact fresh (1, MintAuthorized 7 4 "ipfs://a" (answer true)) in
  ∃ e, demo_exec 2 (Mint 0 4 "ipfs://b" [Byte.x01] (answer true))
         (demo_run [(7, Burn 4)] s') = Revert e.
Proof.
  intros s'.
  apply (issued_at_most_once demo_hash demo_recover fresh s' 1
           (MintAuthorized 7 4 "ipfs://a" (answer true)) 4).
  - reflexivity.
  - vm_compute. reflexivity.
  - reflexivity.
Defined.

(** Account 2 after a deposit of its own. *)
Lemma only_the_deployer_is_privileged_witness :
  let s := demo_run [(2, Receive 3)] (constructor 1 0) in
  owner s = 1
  ∧ (∀ recipient id uri k,
       demo_exec 2 (MintAuthorized recipient id uri k) s =
         Revert (Error "unauthorized to mint"))
  ∧ (∀ id, demo_exec 2 (RevokeId id) s = Revert (Error "unauthorized to revoke id"))
  ∧ (∀ floor,
       demo_exec 2 (SetIdFloor floor) s = Revert (Error "unauthorized to set idFloor"))
  ∧ (∀ k, demo_exec 2 (Withdraw k) s = Revert (Error "unauthorized to withdraw")).
Proof.
  apply (only_the_deployer_is_privileged demo_hash demo_recover 1 0
           [(2, Receive 3)] 2).
  discriminate.
Defined.

(** A deposit, a paid issuance and a withdrawal tried by account 2, on a
    balance of 5. *)
Lemma funds_leave_only_by_withdraw_witness :
  let s := constructor 1 5 in
  let later :=
    demo_run [(2, Receive 3);
              (2, Mint 4 5 "ipfs://x" [Byte.x01] (answer true));
              (2, Withdraw (answer true))] s in
  owner later = owner s ∧ balance s ≤ balance later.
Proof.
  intros s later.
  apply (funds_leave_only_by_withdraw demo_hash demo_recover s).
  repeat constructor.
Defined.

(** Identifier 4 is issued to account 7 and passed on to account 8, which
    burns it. *)
Lemma holder_can_burn_witness :
  let s :=
    demo_run [(1, MintAuthorized 7 4 "ipfs://a" (answer true));
              (7, TransferFrom 7 8 4)] (constructor 1 0) in
  ∃ s', demo_exec 8 (Burn 4) s = Ok (tt, s')
        ∧ claimed s' 4 = false ∧ revoked s' 4 = true
        ∧ tokenURI 4 s' = Ok ("", s')
        ∧ totalSupply s' + 1 = totalSupply s.
Proof.
  apply (holder_can_burn demo_hash demo_recover 1 0
           [(1, MintAuthorized 7 4 "ipfs://a" (answer true));
            (7, TransferFrom 7 8 4)] 4 8).
  vm_compute. reflexivity.
Defined.
